(** * Three-item customization: the texture compositor, the model cache and
      the preview controller of the 3D product previewer.

    The development follows the single TypeScript module of the repository:
    [loadGLTFObject] and [ModelCache], [setupBaseCanvas],
    [DRAW_TEXTURE_MAP] (the [cup] and [cushion] drawing routines),
    [applyTexture] and [setupImagePreviewControls] with its three listeners.

    Modelling conventions.
    - JavaScript numbers are IEEE binary64.  The arithmetic of the drawing
      routines is written once over a small interface [Number] with two
      instances: exact rationals [Q], on which the general theorems are
      proved, and the primitive binary64 floats, on which the routines
      are evaluated at concrete inputs.
    - The 2D canvas is a display list: every [fillRect] and [drawImage]
      records its arguments together with the transformation matrix in
      force; [paint_at] gives the paint of a pixel by sampling its centre.
    - Objects with identity (meshes, materials) are numbered by an
      allocation counter of the [World].
    - [async] functions are run to completion one after the other; what a
      pending promise of the environment settles to (the loader's answer,
      the decoder's answer) is carried by the call that awaits it.
    - The canvas, the scene graph of three.js and the GLTF loader are
      not part of the repository; they are modelled as far as the module
      uses them: [fillRect], [drawImage], [scale], [rotate] and
      [fillStyle] of the context, [add] and [remove] of the scene,
      [loadAsync] of the loader.
    - [paint_at_point] says which paint covers a point of the canvas;
      [paint_at] reads it at the centre of a pixel.  What a rasteriser
      makes of a pixel that an edge crosses is a blend of the paints of
      its points and is not modelled. *)

From Stdlib Require Import ZArith QArith Lqa Lia Floats Uint63 String List Bool.
From stdpp Require Import base option list gmap strings.
Import ListNotations.

Local Open Scope string_scope.
Local Open Scope list_scope.

(** ** Numbers *)

Class Number (N : Type) : Type := {
  lit : Z -> N;
  nadd : N -> N -> N;
  nsub : N -> N -> N;
  nmul : N -> N -> N;
  ndiv : N -> N -> N;
  nneg : N -> N;
  ngt : N -> N -> bool;
  nlt : N -> N -> bool
}.

Declare Scope num_scope.
Delimit Scope num_scope with num.
Infix "+" := nadd : num_scope.
Infix "-" := nsub : num_scope.
Infix "*" := nmul : num_scope.
Infix "/" := ndiv : num_scope.
Notation "- x" := (nneg x) : num_scope.
Infix ">?" := ngt (at level 70, no associativity) : num_scope.
Infix "<?" := nlt (at level 70, no associativity) : num_scope.

#[export] Instance Number_Q : Number Q := {|
  lit := inject_Z;
  nadd := Qplus;
  nsub := Qminus;
  nmul := Qmult;
  ndiv := Qdiv;
  nneg := Qopp;
  ngt := fun a b => negb (Qle_bool a b);
  nlt := fun a b => negb (Qle_bool b a)
|}.

(** Integer-valued doubles below 2^53 are exact, so a literal or an image
    dimension converts without rounding. *)
#[export] Instance Number_binary64 : Number float := {|
  lit := fun z => PrimFloat.of_uint63 (Uint63.of_Z z);
  nadd := PrimFloat.add;
  nsub := PrimFloat.sub;
  nmul := PrimFloat.mul;
  ndiv := PrimFloat.div;
  nneg := PrimFloat.opp;
  ngt := fun a b => PrimFloat.ltb b a;
  nlt := fun a b => PrimFloat.ltb a b
|}.

(** ** Images *)

(** A decoded bitmap: its dimensions in pixels and its content.  The content
    is opaque to the program, it is only handed to [drawImage]. *)
Record ImageBitmap : Type := {
  image_width : Z;
  image_height : Z;
  image_data : nat
}.

Definition non_degenerate (image : ImageBitmap) : Prop :=
  (0 < image_width image)%Z /\ (0 < image_height image)%Z.

(** ** The arguments of [drawImage] computed by the two routines *)

Record DrawImageArgs (N : Type) : Type := {
  dx : N;
  dy : N;
  dw : N;
  dh : N
}.
Arguments dx {N} _.
Arguments dy {N} _.
Arguments dw {N} _.
Arguments dh {N} _.

Section Placement.
Context {N : Type} `{Number N}.
Local Open Scope num_scope.

(** [cup]: the statements between [if (!image) return] and [drawImage]. *)
Definition cup_placement (canvas_width canvas_height : Z)
    (image : ImageBitmap) : DrawImageArgs N :=
  let aspectRatio := lit (image_width image) / lit (image_height image) in
  let originalImageWidth := lit canvas_width - lit canvas_width / lit 4 in
  let originalImageHeight := lit canvas_height in
  let imageHeight :=
    if aspectRatio >? lit 1
    then originalImageHeight * (lit 1 / aspectRatio)
    else originalImageHeight in
  let imageWidth :=
    if aspectRatio >? lit 1 then originalImageWidth
    else if aspectRatio <? lit 1 then originalImageWidth * aspectRatio
    else originalImageWidth in
  {| dx := lit canvas_width * lit 2 + lit 150
           + (originalImageWidth - imageWidth) / lit 2;
     dy := - lit 1 * (lit canvas_height + lit canvas_height / lit 2)
           + (originalImageHeight - imageHeight) / lit 2;
     dw := imageWidth;
     dh := imageHeight |}.

(** [cushion]: the statements between [if (!image) return] and
    [drawImage], the two transformations apart. *)
Definition cushion_placement (canvas_width canvas_height : Z)
    (image : ImageBitmap) : DrawImageArgs N :=
  let aspectRatio := lit (image_width image) / lit (image_height image) in
  let insetX := lit 200 in
  let insetY := lit 200 in
  let insetY' :=
    if aspectRatio >? lit 1
    then insetY + (lit canvas_height - lit canvas_width / aspectRatio) / lit 2
    else insetY in
  let insetX' :=
    if aspectRatio >? lit 1 then insetX
    else if aspectRatio <? lit 1
    then insetX + (lit canvas_width - lit canvas_height * aspectRatio) / lit 2
    else insetX in
  {| dx := - lit canvas_width + insetX';
     dy := - lit 2 * lit canvas_height + insetY';
     dw := lit canvas_width - lit 2 * insetX';
     dh := lit canvas_height - lit 2 * insetY' |}.
End Placement.

(** ** The 2D drawing context *)

Local Open Scope Q_scope.

(** The current transformation matrix:
    [x' = m_a x + m_c y + m_e] and [y' = m_b x + m_d y + m_f]. *)
Record Matrix : Type := {
  m_a : Q; m_b : Q; m_c : Q; m_d : Q; m_e : Q; m_f : Q
}.

Definition identity : Matrix :=
  {| m_a := 1; m_b := 0; m_c := 0; m_d := 1; m_e := 0; m_f := 0 |}.

(** The two angles the routines rotate by.  [-Math.PI] and [-Math.PI / 2]
    are read as the exact half turn and quarter turn. *)
Inductive Angle : Type := MinusPi | MinusHalfPi.

Definition cosine (a : Angle) : Q :=
  match a with MinusPi => -1 | MinusHalfPi => 0 end.

Definition sine (a : Angle) : Q :=
  match a with MinusPi => 0 | MinusHalfPi => -1 end.

Inductive DrawOp : Type :=
| FillRect (style : string) (ctm : Matrix) (x y w h : Q)
| DrawImage (image : ImageBitmap) (ctm : Matrix) (x y w h : Q).

(** A canvas with its context: [context.canvas] and [canvas.getContext]
    go back and forth between the two, so one record stands for both.
    [fillStyle] holds the color as the string it was set from; the colors
    of the program are ["#ffffff"] and the values of the color input. *)
Record Context2D : Type := {
  canvas_width : Z;
  canvas_height : Z;
  fillStyle : string;
  transform : Matrix;
  drawn : list DrawOp
}.

Definition set_fillStyle (context : Context2D) (style : string) : Context2D :=
  {| canvas_width := canvas_width context;
     canvas_height := canvas_height context;
     fillStyle := style;
     transform := transform context;
     drawn := drawn context |}.

Definition set_transform (context : Context2D) (m : Matrix) : Context2D :=
  {| canvas_width := canvas_width context;
     canvas_height := canvas_height context;
     fillStyle := fillStyle context;
     transform := m;
     drawn := drawn context |}.

Definition draw (context : Context2D) (op : DrawOp) : Context2D :=
  {| canvas_width := canvas_width context;
     canvas_height := canvas_height context;
     fillStyle := fillStyle context;
     transform := transform context;
     drawn := drawn context ++ [op] |}.

Definition fillRect (context : Context2D) (x y w h : Q) : Context2D :=
  draw context (FillRect (fillStyle context) (transform context) x y w h).

Definition drawImage (context : Context2D) (image : ImageBitmap)
    (x y w h : Q) : Context2D :=
  draw context (DrawImage image (transform context) x y w h).

Definition scale (context : Context2D) (sx sy : Q) : Context2D :=
  let m := transform context in
  set_transform context
    {| m_a := m_a m * sx; m_b := m_b m * sx;
       m_c := m_c m * sy; m_d := m_d m * sy;
       m_e := m_e m; m_f := m_f m |}.

Definition rotate (context : Context2D) (angle : Angle) : Context2D :=
  let m := transform context in
  let c := cosine angle in
  let s := sine angle in
  set_transform context
    {| m_a := m_a m * c + m_c m * s; m_b := m_b m * c + m_d m * s;
       m_c := m_c m * c - m_a m * s; m_d := m_d m * c - m_b m * s;
       m_e := m_e m; m_f := m_f m |}.

(** *** What a pixel shows *)

Inductive Paint : Type :=
| Transparent
| Flat (style : string)
| Texel (image : ImageBitmap) (u v : Q).

(** The point of user space that the matrix sends to [(X, Y)];
    [None] when the matrix is singular. *)
Definition preimage (m : Matrix) (X Y : Q) : option (Q * Q) :=
  let det := m_a m * m_d m - m_b m * m_c m in
  if Qeq_bool det 0 then None
  else Some ((m_d m * (X - m_e m) - m_c m * (Y - m_f m)) / det,
             (m_a m * (Y - m_f m) - m_b m * (X - m_e m)) / det).

(** A side of a rectangle: from [lo] to [lo + len], whichever is lower. *)
Definition between (lo len p : Q) : bool :=
  if Qle_bool 0 len
  then (Qle_bool lo p && negb (Qle_bool (lo + len) p))%bool
  else (Qle_bool (lo + len) p && negb (Qle_bool lo p))%bool.

Definition inside (x y w h : Q) (p : Q * Q) : bool :=
  (between x w (fst p) && between y h (snd p))%bool.

(** The paint an operation leaves on the pixel with centre [(X, Y)]. *)
Definition paint_of (op : DrawOp) (X Y : Q) : option Paint :=
  match op with
  | FillRect style ctm x y w h =>
      match preimage ctm X Y with
      | Some p => if inside x y w h p then Some (Flat style) else None
      | None => None
      end
  | DrawImage image ctm x y w h =>
      match preimage ctm X Y with
      | Some p =>
          if inside x y w h p
          then Some (Texel image
                       ((fst p - x) / w * inject_Z (image_width image))
                       ((snd p - y) / h * inject_Z (image_height image)))
          else None
      | None => None
      end
  end.

Definition paint_over (below : Paint) (op : DrawOp) (X Y : Q) : Paint :=
  match paint_of op X Y with
  | Some p => p
  | None => below
  end.

(** The paint that covers the point [(X, Y)] of the canvas; later
    operations paint over earlier ones. *)
Definition paint_at_point (context : Context2D) (X Y : Q) : Paint :=
  fold_left (fun below op => paint_over below op X Y) (drawn context)
            Transparent.

(** Pixel [(i, j)] of the canvas, sampled at its centre; later operations
    paint over earlier ones. *)
Definition paint_at (context : Context2D) (i j : Z) : Paint :=
  fold_left (fun below op =>
               paint_over below op (inject_Z i + (1 # 2)) (inject_Z j + (1 # 2)))
            (drawn context) Transparent.

(** ** [setupBaseCanvas] and [DRAW_TEXTURE_MAP] *)

(** A new canvas element of 2048 by 2048 with the context's defaults. *)
Definition new_canvas : Context2D :=
  {| canvas_width := 2048;
     canvas_height := 2048;
     fillStyle := "#000000";
     transform := identity;
     drawn := [] |}.

Definition DrawTexture : Type :=
  Context2D -> string -> option ImageBitmap -> Context2D.

Definition cup : DrawTexture := fun context color image =>
  let context := set_fillStyle context color in
  let context :=
    fillRect context 0 0 (inject_Z (canvas_width context))
             (inject_Z (canvas_height context)) in
  let context := scale context (- (1 # 1) / 4) ((1 # 1) / 2) in
  let context := rotate context MinusPi in
  match image with
  | None => context
  | Some image =>
      let args :=
        cup_placement (N := Q) (canvas_width context) (canvas_height context)
                      image in
      drawImage context image (dx args) (dy args) (dw args) (dh args)
  end.

Definition cushion : DrawTexture := fun context color image =>
  let context := set_fillStyle context color in
  let context :=
    fillRect context 0 0 (inject_Z (canvas_width context))
             (inject_Z (canvas_height context)) in
  match image with
  | None => context
  | Some image =>
      let args :=
        cushion_placement (N := Q) (canvas_width context)
                          (canvas_height context) image in
      let context := scale context (- (1 # 1) / 2) ((1 # 1) / 2) in
      let context := rotate context MinusHalfPi in
      drawImage context image (dx args) (dy args) (dw args) (dh args)
  end.

(** The own properties of the registry: [cup] and [cushion]. *)
Definition DRAW_TEXTURE_MAP (name : string) : option DrawTexture :=
  if String.eqb name "cup" then Some cup
  else if String.eqb name "cushion" then Some cushion
  else None.

(** The registry is an object literal, so [DRAW_TEXTURE_MAP[name]] also
    finds what the literal inherits from [Object.prototype].  The module
    is strict code and [applyTexture] calls what it finds without a
    receiver.  Of the inherited properties, [constructor] and [toString]
    return when called so; the others throw a [TypeError]: they start by
    turning the missing receiver into an object, or, for [__proto__], are
    no function at all. *)
Definition inherited_returning : list string :=
  ["constructor"; "toString"].

Definition inherited_throwing : list string :=
  ["__defineGetter__"; "__defineSetter__"; "__lookupGetter__";
   "__lookupSetter__"; "__proto__"; "hasOwnProperty"; "isPrototypeOf";
   "propertyIsEnumerable"; "toLocaleString"; "valueOf"].

(** What [DRAW_TEXTURE_MAP[name]] evaluates to. *)
Inductive Lookup : Type :=
| Own (drawTexture : DrawTexture)
| InheritedReturning
| InheritedThrowing
| Missing.

Definition lookup_routine (name : string) : Lookup :=
  match DRAW_TEXTURE_MAP name with
  | Some drawTexture => Own drawTexture
  | None =>
      if existsb (String.eqb name) inherited_returning then InheritedReturning
      else if existsb (String.eqb name) inherited_throwing
      then InheritedThrowing
      else Missing
  end.

(** The texture a model gets whose name has a routine in the registry:
    the canvas part of [applyTexture], from [setupBaseCanvas] to the call
    of the routine. *)
Definition composite (name color : string) (image : option ImageBitmap)
    : option Context2D :=
  match DRAW_TEXTURE_MAP name with
  | Some drawTexture => Some (drawTexture new_canvas color image)
  | None => None
  end.

(** The destination rectangle of the last [drawImage] on a canvas. *)
Definition image_rectangle (context : Context2D) : option (DrawImageArgs Q) :=
  match last (drawn context) with
  | Some (DrawImage _ _ x y w h) => Some {| dx := x; dy := y; dw := w; dh := h |}
  | _ => None
  end.

Local Close Scope Q_scope.

(** ** Objects of the scene and of the environment *)

(** A mesh is known by its identity. *)
Definition Mesh : Type := nat.

Record ModelWithMeta : Type := {
  name : string;
  mesh : Mesh
}.

(** [mesh.material]: what the asset came with, or a
    [MeshStandardMaterial] whose map is the texture of a canvas. *)
Inductive Material : Type :=
| AssetMaterial
| CanvasMaterial (material_id : nat) (map : Context2D).

(** The children of the scene: the two lights of [setupLighting] and
    the meshes added by the controller. *)
Inductive Object3D : Type :=
| AmbientLight
| DirectionalLight
| MeshObject (m : Mesh).

#[export] Instance Object3D_eq_dec : EqDecision Object3D.
Proof. solve_decision. Defined.

(** What [loader.loadAsync] settles to: a rejection, or a scene graph
    whose first child is a mesh, or one whose first child is something
    else (or is missing). *)
Inductive Asset : Type :=
| Rejected
| FirstChildMesh
| FirstChildOther.

(** What [createImageBitmap] settles to for a file. *)
Inductive File : Type :=
| Decodable (bitmap : ImageBitmap)
| Undecodable.

Inductive Error : Type :=
| LoadError
| DecodeError
| NoContextError
| TypeError.

(** ** The state of the program and of what it acts on *)

(** [fetched] is the log of the calls of [loader.loadAsync], with what
    each settled to; [material] is the [material] property of every
    mesh; [scene] is [scene.children]; [activeModel], [activeImage] and
    [color] are the three variables of [setupImagePreviewControls]. *)
Record World : Type := {
  context2d_available : bool;
  allocated : nat;
  fetched : list (string * Asset);
  ModelCache : gmap string ModelWithMeta;
  material : gmap Mesh Material;
  scene : list Object3D;
  activeModel : option ModelWithMeta;
  activeImage : option ImageBitmap;
  color : string
}.

Definition set_context2d_available (b : bool) (w : World) : World :=
  {| context2d_available := b; allocated := allocated w;
     fetched := fetched w; ModelCache := ModelCache w;
     material := material w; scene := scene w;
     activeModel := activeModel w; activeImage := activeImage w;
     color := color w |}.

Definition set_allocated (n : nat) (w : World) : World :=
  {| context2d_available := context2d_available w; allocated := n;
     fetched := fetched w; ModelCache := ModelCache w;
     material := material w; scene := scene w;
     activeModel := activeModel w; activeImage := activeImage w;
     color := color w |}.

Definition set_fetched (l : list (string * Asset)) (w : World) : World :=
  {| context2d_available := context2d_available w; allocated := allocated w;
     fetched := l; ModelCache := ModelCache w;
     material := material w; scene := scene w;
     activeModel := activeModel w; activeImage := activeImage w;
     color := color w |}.

Definition set_ModelCache (c : gmap string ModelWithMeta) (w : World) : World :=
  {| context2d_available := context2d_available w; allocated := allocated w;
     fetched := fetched w; ModelCache := c;
     material := material w; scene := scene w;
     activeModel := activeModel w; activeImage := activeImage w;
     color := color w |}.

Definition set_material (m : gmap Mesh Material) (w : World) : World :=
  {| context2d_available := context2d_available w; allocated := allocated w;
     fetched := fetched w; ModelCache := ModelCache w;
     material := m; scene := scene w;
     activeModel := activeModel w; activeImage := activeImage w;
     color := color w |}.

Definition set_scene (s : list Object3D) (w : World) : World :=
  {| context2d_available := context2d_available w; allocated := allocated w;
     fetched := fetched w; ModelCache := ModelCache w;
     material := material w; scene := s;
     activeModel := activeModel w; activeImage := activeImage w;
     color := color w |}.

Definition set_activeModel (m : option ModelWithMeta) (w : World) : World :=
  {| context2d_available := context2d_available w; allocated := allocated w;
     fetched := fetched w; ModelCache := ModelCache w;
     material := material w; scene := scene w;
     activeModel := m; activeImage := activeImage w;
     color := color w |}.

Definition set_activeImage (i : option ImageBitmap) (w : World) : World :=
  {| context2d_available := context2d_available w; allocated := allocated w;
     fetched := fetched w; ModelCache := ModelCache w;
     material := material w; scene := scene w;
     activeModel := activeModel w; activeImage := i;
     color := color w |}.

Definition set_color (c : string) (w : World) : World :=
  {| context2d_available := context2d_available w; allocated := allocated w;
     fetched := fetched w; ModelCache := ModelCache w;
     material := material w; scene := scene w;
     activeModel := activeModel w; activeImage := activeImage w;
     color := c |}.

(** ** Computations: state and exceptions *)

Inductive Completion (A : Type) : Type :=
| Normal (a : A)
| Throw (e : Error).
Arguments Normal {A} a.
Arguments Throw {A} e.

Definition Js (A : Type) : Type := World -> Completion A * World.

Definition ret {A : Type} (a : A) : Js A := fun w => (Normal a, w).

Definition throw {A : Type} (e : Error) : Js A := fun w => (Throw e, w).

Definition bind {A B : Type} (c : Js A) (k : A -> Js B) : Js B :=
  fun w =>
    match c w with
    | (Normal a, w') => k a w'
    | (Throw e, w') => (Throw e, w')
    end.

Definition gets {A : Type} (f : World -> A) : Js A := fun w => (Normal (f w), w).

Definition modify (f : World -> World) : Js unit := fun w => (Normal tt, f w).

(** [try { c } catch { handler }] *)
Definition try_catch {A : Type} (c : Js A) (handler : Js A) : Js A :=
  fun w =>
    match c w with
    | (Normal a, w') => (Normal a, w')
    | (Throw _, w') => handler w'
    end.

Declare Scope js_scope.
Delimit Scope js_scope with js.
Notation "'let*' x ':=' c 'in' k" := (bind c (fun x => k))
  (at level 10, x name, c at level 100, k at level 200) : js_scope.
Notation "c ';;;' k" := (bind c (fun _ => k))
  (at level 100, k at level 200, right associativity) : js_scope.

Local Open Scope js_scope.

(** A new object: the next identity. *)
Definition allocate : Js nat :=
  fun w => (Normal (allocated w), set_allocated (S (allocated w)) w).

(** ** The scene of three.js, as used here *)

Definition without (object : Object3D) (children : list Object3D) : list Object3D :=
  filter (fun o => o <> object) children.

(** [scene.remove(object)] *)
Definition scene_remove (object : Object3D) : Js unit :=
  modify (fun w => set_scene (without object (scene w)) w).

(** [scene.add(object)]: the object leaves its parent, if it has one, and
    becomes the last child. *)
Definition scene_add (object : Object3D) : Js unit :=
  modify (fun w => set_scene (without object (scene w) ++ [object]) w).

(** ** The model cache *)

Definition model_url (name : string) : string :=
  ("/models/" ++ name ++ ".glb")%string.

(** [loader.loadAsync(url).then((gltf) => gltf.scene.children[0])]: the
    fetch is made, and what comes back is this call's [asset]. *)
Definition loadAsync_first_child (asset : Asset) (url : string)
    : Js (option Mesh) :=
  modify (fun w => set_fetched (fetched w ++ [(url, asset)]) w) ;;;
  match asset with
  | Rejected => throw LoadError
  | FirstChildMesh =>
      let* m := allocate in
      modify (fun w => set_material (<[m := AssetMaterial]> (material w)) w) ;;;
      ret (Some m)
  | FirstChildOther => ret None
  end.

Definition loadGLTFObject (asset : Asset) (name : string)
    : Js (option ModelWithMeta) :=
  let* cached := gets (fun w => ModelCache w !! name) in
  (match cached with
   | None =>
       let* mesh := loadAsync_first_child asset (model_url name) in
       match mesh with
       | Some mesh =>
           modify (fun w =>
             set_ModelCache
               (<[name := {| name := name; mesh := mesh |}]> (ModelCache w)) w)
       | None => ret tt
       end
   | Some _ => ret tt
   end) ;;;
  gets (fun w => ModelCache w !! name).

(** ** [applyTexture] *)

(** [canvas.getContext("2d")] gives a context or [null]; which of the
    two is a fact of the browser, [context2d_available]. *)
Definition setupBaseCanvas : Js Context2D :=
  let* available := gets context2d_available in
  if available then ret new_canvas else throw NoContextError.

(** The last three statements of [applyTexture]: a new material with
    the texture of the canvas becomes the material of the mesh. *)
Definition bind_texture (model : ModelWithMeta) (canvas : Context2D)
    : Js unit :=
  let* id := allocate in
  modify (fun w =>
    set_material (<[mesh model := CanvasMaterial id canvas]> (material w)) w).

Definition applyTexture (model : ModelWithMeta) (image : option ImageBitmap)
    (color : string) : Js unit :=
  let* context := setupBaseCanvas in
  match lookup_routine (name model) with
  | Missing => ret tt
  | Own drawTexture => bind_texture model (drawTexture context color image)
  | InheritedReturning => bind_texture model context
  | InheritedThrowing => throw TypeError
  end.

(** ** [setupImagePreviewControls] *)

Definition setActiveModel (asset : Asset) (name : string) : Js unit :=
  let* newModel := loadGLTFObject asset name in
  match newModel with
  | None => ret tt
  | Some newModel =>
      let* current := gets activeModel in
      (match current with
       | Some model => scene_remove (MeshObject (mesh model))
       | None => ret tt
       end) ;;;
      modify (set_activeModel (Some newModel)) ;;;
      let* image := gets activeImage in
      let* c := gets color in
      applyTexture newModel image c ;;;
      scene_add (MeshObject (mesh newModel))
  end.

(** [createImageBitmap(imageFile)] *)
Definition createImageBitmap (file : File) : Js ImageBitmap :=
  match file with
  | Decodable bitmap => ret bitmap
  | Undecodable => throw DecodeError
  end.

(** The listener of the image input. *)
Definition on_image_upload (imageFile : option File) : Js unit :=
  let* current := gets activeModel in
  match imageFile, current with
  | Some imageFile, Some _ =>
      let* decoded :=
        try_catch
          (let* imageBitmap := createImageBitmap imageFile in
           modify (set_activeImage (Some imageBitmap)) ;;;
           ret true)
          (ret false) in
      if decoded : bool then
        let* model := gets activeModel in
        let* image := gets activeImage in
        let* c := gets color in
        match model with
        | Some model => applyTexture model image c
        | None => ret tt
        end
      else ret tt
  | _, _ => ret tt
  end.

(** The listener of the color input. *)
Definition on_color_input (value : string) : Js unit :=
  modify (set_color value) ;;;
  let* current := gets activeModel in
  match current with
  | Some model =>
      let* image := gets activeImage in
      let* c := gets color in
      applyTexture model image c
  | None => ret tt
  end.

(** The three events of the input surface. *)
Inductive Event : Type :=
| ModelSelect (value : string) (asset : Asset)
| ImageUpload (imageFile : option File)
| ColorInput (value : string).

Definition handle (event : Event) : Js unit :=
  match event with
  | ModelSelect value asset => setActiveModel asset value
  | ImageUpload imageFile => on_image_upload imageFile
  | ColorInput value => on_color_input value
  end.

(** The world when [setupImagePreviewControls] starts: the scene holds
    the two lights, nothing is cached, and the three variables have
    their initial values. *)
Definition initial_world (context2d : bool) : World :=
  {| context2d_available := context2d;
     allocated := 0;
     fetched := [];
     ModelCache := ∅;
     material := ∅;
     scene := [AmbientLight; DirectionalLight];
     activeModel := None;
     activeImage := None;
     color := "#ffffff" |}.

(** The part of [setupImagePreviewControls] that runs before the
    listeners are installed: the model of the checked radio input, if
    there is one, is made active. *)
Definition setupImagePreviewControls (checked : option (string * Asset))
    : Js unit :=
  match checked with
  | Some (value, asset) => setActiveModel asset value
  | None => ret tt
  end.

(** Events are handled one after the other.  A listener that throws
    leaves a rejected promise that nothing handles: the error is reported
    to the global handler, and the next event is handled all the same. *)
Fixpoint dispatch (events : list Event) (w : World) : list Error * World :=
  match events with
  | [] => ([], w)
  | event :: events =>
      match handle event w with
      | (Normal _, w') => dispatch events w'
      | (Throw e, w') =>
          let (unhandled, w'') := dispatch events w' in (e :: unhandled, w'')
      end
  end.

(** The session: when the initial selection throws, [main] is rejected
    before any listener is installed and no event is ever handled. *)
Definition session (context2d : bool) (checked : option (string * Asset))
    (events : list Event) : list Error * World :=
  match setupImagePreviewControls checked (initial_world context2d) with
  | (Normal _, w) => dispatch events w
  | (Throw e, w) => ([e], w)
  end.

(** * What the properties are stated with *)

Local Open Scope Q_scope.

(** The aspect ratio of an image, [image.width / image.height]. *)
Definition aspect (image : ImageBitmap) : Q :=
  inject_Z (image_width image) / inject_Z (image_height image).

Definition centre_x (r : DrawImageArgs Q) : Q := dx r + dw r / 2.

Definition centre_y (r : DrawImageArgs Q) : Q := dy r + dh r / 2.

(** The target region of [cup] in the coordinates of [drawImage]: from
    [canvas.width * 2 + 150] and [-(canvas.height + canvas.height / 2)],
    three quarters of the canvas wide and the whole canvas high. *)
Definition cup_region : DrawImageArgs Q :=
  {| dx := 4246; dy := -3072; dw := 1536; dh := 2048 |}.

(** The target region of [cushion]: the canvas moved by
    [(-canvas.width, -2 * canvas.height)], inset by 200 on every side. *)
Definition cushion_region : DrawImageArgs Q :=
  {| dx := -1848; dy := -3896; dw := 1648; dh := 1648 |}.

Local Close Scope Q_scope.

Definition square_image : ImageBitmap :=
  {| image_width := 512; image_height := 512; image_data := 0 |}.

Definition wide_image : ImageBitmap :=
  {| image_width := 1024; image_height := 512; image_data := 0 |}.

(** A sequence of calls of [loadGLTFObject], each with what the loader
    would answer; the results are dropped and a rejection is swallowed. *)
Definition get_or_load_all (calls : list (string * Asset)) (w : World) : World :=
  fold_left (fun w call => snd (loadGLTFObject (snd call) (fst call) w)) calls w.

(** The log of fetches and the cache agree: an identifier whose fetch
    gave a mesh is cached, and is not fetched again. *)
Definition fetched_once (w : World) : Prop :=
  (forall key, In (model_url key, FirstChildMesh) (fetched w) ->
               is_Some (ModelCache w !! key))
  /\ (forall before key after,
        fetched w = before ++ (model_url key, FirstChildMesh) :: after ->
        forall asset, ~ In (model_url key, asset) after).

(** The texture on a material, the identity of the material apart. *)
Definition texture_of (m : Material) : option Context2D :=
  match m with
  | AssetMaterial => None
  | CanvasMaterial _ map => Some map
  end.

(** The meshes among the children of the scene. *)
Definition meshes (children : list Object3D) : list Mesh :=
  omap (fun o => match o with MeshObject m => Some m | _ => None end) children.

(** The scene holds the mesh of the active model and no other, and the
    material of that mesh carries the texture composited from the
    current image and color. *)
Definition displays_active_model (w : World) : Prop :=
  match activeModel w with
  | Some model =>
      meshes (scene w) = [mesh model]
      /\ exists id canvas,
           material w !! mesh model = Some (CanvasMaterial id canvas)
           /\ composite (name model) (color w) (activeImage w) = Some canvas
  | None => meshes (scene w) = []
  end.

(** The invariant of the session: cached entries carry the identifier
    they are stored under and a mesh that exists; the active model is a
    cached entry; the scene is the two lights followed by the mesh of the
    active model; that mesh has a material made by [applyTexture] for
    the current image and color. *)
Record coherent (w : World) : Prop := {
  cache_names : forall key model,
    ModelCache w !! key = Some model -> name model = key;
  cache_allocated : forall key model,
    ModelCache w !! key = Some model -> mesh model < allocated w;
  active_cached : forall model,
    activeModel w = Some model -> ModelCache w !! name model = Some model;
  scene_of_active :
    scene w = [AmbientLight; DirectionalLight]
              ++ match activeModel w with
                 | Some model => [MeshObject (mesh model)]
                 | None => []
                 end;
  active_textured : forall model,
    activeModel w = Some model ->
    exists id canvas,
      material w !! mesh model = Some (CanvasMaterial id canvas)
      /\ id < allocated w
      /\ composite (name model) (color w) (activeImage w) = Some canvas
}.

(** The closed set of model identifiers. *)
Definition supported (value : string) : Prop :=
  value = "cup" \/ value = "cushion".

Definition supported_event (event : Event) : Prop :=
  match event with
  | ModelSelect value _ => supported value
  | _ => True
  end.

Definition supported_checked (checked : option (string * Asset)) : Prop :=
  match checked with
  | Some (value, _) => supported value
  | None => True
  end.

(** Worlds and events the statements are tried on. *)
Definition world_with_cup : World :=
  snd (loadGLTFObject FirstChildMesh "cup" (initial_world true)).

Definition world_with_cushion : World :=
  snd (session true (Some ("cushion", FirstChildMesh))
         [ColorInput "#112233"; ImageUpload (Some (Decodable wide_image))]).

Definition sample_events : list Event :=
  [ColorInput "#112233";
   ImageUpload (Some (Decodable square_image));
   ModelSelect "cushion" Rejected;
   ModelSelect "cushion" FirstChildMesh;
   ImageUpload (Some Undecodable);
   ModelSelect "cup" FirstChildOther].

(** ** The page: [Elements], the listeners and [main] *)

(** An element of the document, as far as [instanceof HTMLInputElement]
    and [value] tell. *)
Inductive Element : Type :=
| HTMLInputElement (value : string)
| OtherElement.

(** What the four queries of [Elements] find in the document:
    [getElementById("canvas-container")],
    [querySelector("input[name='model']:checked")],
    [getElementById("image-upload")] and [getElementById("color-change")]. *)
Record Document : Type := {
  canvas_container : option Element;
  checked_model : option Element;
  image_upload : option Element;
  color_change : option Element
}.

Definition getCanvasContainer (document : Document) : option Element :=
  canvas_container document.

Definition getActiveModelRadioInput (document : Document) : option string :=
  match checked_model document with
  | Some (HTMLInputElement value) => Some value
  | _ => None
  end.

Definition getImageUploadInput (document : Document) : option string :=
  match image_upload document with
  | Some (HTMLInputElement value) => Some value
  | _ => None
  end.

Definition getColorInput (document : Document) : option string :=
  match color_change document with
  | Some (HTMLInputElement value) => Some value
  | _ => None
  end.

(** Which listeners [setupImagePreviewControls] has installed. *)
Record Listeners : Type := {
  model_listener : bool;
  image_listener : bool;
  color_listener : bool
}.

Definition no_listeners : Listeners :=
  {| model_listener := false; image_listener := false;
     color_listener := false |}.

(** [setupImagePreviewControls] as a whole: the initial selection, the
    listeners of the radio inputs, and then, as long as the input is
    found, the listener of the image input and the listener of the color
    input.  [asset] is what the loader answers to the initial
    selection. *)
Definition install_controls (document : Document) (asset : Asset)
    : Js Listeners :=
  setupImagePreviewControls
    (option_map (fun value => (value, asset))
                (getActiveModelRadioInput document)) ;;;
  match getImageUploadInput document with
  | None =>
      ret {| model_listener := true; image_listener := false;
             color_listener := false |}
  | Some _ =>
      match getColorInput document with
      | None =>
          ret {| model_listener := true; image_listener := true;
                 color_listener := false |}
      | Some _ =>
          ret {| model_listener := true; image_listener := true;
                 color_listener := true |}
      end
  end.

(** An event reaches its listener if it is installed. *)
Definition deliver (listeners : Listeners) (event : Event) : Js unit :=
  match event with
  | ModelSelect _ _ =>
      if model_listener listeners then handle event else ret tt
  | ImageUpload _ =>
      if image_listener listeners then handle event else ret tt
  | ColorInput _ =>
      if color_listener listeners then handle event else ret tt
  end.

Fixpoint deliver_all (listeners : Listeners) (events : list Event) (w : World)
    : list Error * World :=
  match events with
  | [] => ([], w)
  | event :: events =>
      match deliver listeners event w with
      | (Normal _, w') => deliver_all listeners events w'
      | (Throw e, w') =>
          let (unhandled, w'') := deliver_all listeners events w' in
          (e :: unhandled, w'')
      end
  end.

(** What [main] does to the page besides the preview: the calls of
    [renderer.render], the canvas of the renderer appended to the
    container, the animation loop set. *)
Record Host : Type := {
  frames_rendered : nat;
  canvas_attached : bool;
  animation_loop : bool
}.

Record Page : Type := {
  page_world : World;
  page_listeners : Listeners;
  page_host : Host;
  page_rejection : option Error
}.

(** [main], from [setupImagePreviewControls] on: a rejection there
    rejects [main] on the spot; otherwise one frame is rendered, and the
    canvas is attached and the loop set if the container is found. *)
Definition main (context2d : bool) (document : Document) (asset : Asset)
    : Page :=
  match install_controls document asset (initial_world context2d) with
  | (Throw e, w) =>
      {| page_world := w;
         page_listeners := no_listeners;
         page_host := {| frames_rendered := 0; canvas_attached := false;
                         animation_loop := false |};
         page_rejection := Some e |}
  | (Normal listeners, w) =>
      {| page_world := w;
         page_listeners := listeners;
         page_host :=
           match getCanvasContainer document with
           | None => {| frames_rendered := 1; canvas_attached := false;
                        animation_loop := false |}
           | Some _ => {| frames_rendered := 1; canvas_attached := true;
                          animation_loop := true |}
           end;
         page_rejection := None |}
  end.

(** The page and then the events of the user. *)
Definition page_session (context2d : bool) (document : Document)
    (asset : Asset) (events : list Event) : list Error * World :=
  let page := main context2d document asset in
  deliver_all (page_listeners page) events (page_world page).

(** The world in which [setActiveModel] calls [applyTexture]: the mesh
    of the model that was active is out of the scene, the new model is
    the active one. *)
Definition swapped_in (newModel : ModelWithMeta) (w : World) : World :=
  set_activeModel (Some newModel)
    (match activeModel w with
     | Some model => set_scene (without (MeshObject (mesh model)) (scene w)) w
     | None => w
     end).

(** The model a listener hands to [applyTexture], if it gets that far. *)
Definition retextured (event : Event) (w : World) : option ModelWithMeta :=
  match event with
  | ModelSelect key asset =>
      match fst (loadGLTFObject asset key w) with
      | Normal (Some newModel) => Some newModel
      | _ => None
      end
  | ImageUpload (Some (Decodable _)) => activeModel w
  | ImageUpload _ => None
  | ColorInput _ => activeModel w
  end.

(** The world of the displayed cushion, once the browser has no 2D
    context to give any more. *)
Definition world_without_context : World :=
  set_context2d_available false world_with_cushion.

(** The scene is the two lights, followed by the mesh of the active
    model or by nothing. *)
Definition lights_and_active_mesh (w : World) : Prop :=
  scene w = [AmbientLight; DirectionalLight]
  \/ exists model,
       activeModel w = Some model
       /\ scene w = [AmbientLight; DirectionalLight; MeshObject (mesh model)].

(** The events that select a model whose load is rejected. *)
Definition rejected_select (event : Event) : bool :=
  match event with
  | ModelSelect _ Rejected => true
  | _ => false
  end.

Definition very_wide_image : ImageBitmap :=
  {| image_width := 3072; image_height := 512; image_data := 0 |}.

Definition very_tall_image : ImageBitmap :=
  {| image_width := 512; image_height := 3072; image_data := 0 |}.

Definition page_without_image_input : Document :=
  {| canvas_container := Some OtherElement;
     checked_model := Some (HTMLInputElement "cup");
     image_upload := None;
     color_change := Some (HTMLInputElement "#ffffff") |}.

(** Splits on the completion of the call of [applyTexture] in the goal,
    with what [frame] says of the world it ends in. *)
Ltac split_applyTexture frame :=
  match goal with
  | |- context [applyTexture ?m ?i ?c ?w] =>
      let H := fresh "Hctx" in
      pose proof (frame m i c w) as H;
      destruct (applyTexture m i c w) as [[[] | ?] ?];
      cbn in H |- *; try congruence
  end.

(** * Properties *)

(** ** Rational comparisons *)

Local Open Scope Q_scope.

Lemma Qle_bool_false (a b : Q) : Qle_bool a b = false <-> b < a.
Proof.
  rewrite <- not_true_iff_false, Qle_bool_iff. split; intros Hab; lra.
Qed.

Lemma between_spec (lo len p : Q) :
  0 <= len -> (between lo len p = true <-> lo <= p /\ p < lo + len).
Proof.
  intros Hlen. unfold between.
  apply Qle_bool_iff in Hlen. rewrite Hlen.
  rewrite andb_true_iff, negb_true_iff, Qle_bool_iff, Qle_bool_false.
  reflexivity.
Qed.

Lemma preimage_identity (X Y : Q) :
  exists p, preimage identity X Y = Some p /\ fst p == X /\ snd p == Y.
Proof.
  unfold preimage, identity; cbn [m_a m_b m_c m_d m_e m_f].
  replace (Qeq_bool (1 * 1 - 0 * 0) 0) with false by reflexivity.
  eexists; split; [reflexivity |]. cbn [fst snd]. split; field.
Qed.

Lemma aspect_pos (image : ImageBitmap) : non_degenerate image -> 0 < aspect image.
Proof.
  intros [Hw Hh]. unfold aspect.
  apply Qlt_shift_div_l.
  - replace 0 with (inject_Z 0) by reflexivity. now rewrite <- Zlt_Qlt.
  - rewrite Qmult_0_l. replace 0 with (inject_Z 0) by reflexivity.
    now rewrite <- Zlt_Qlt.
Qed.

Lemma cup_image_rectangle (color : string) (image : ImageBitmap) :
  image_rectangle (cup new_canvas color (Some image))
  = Some (cup_placement 2048 2048 image).
Proof. reflexivity. Qed.

Lemma cushion_image_rectangle (color : string) (image : ImageBitmap) :
  image_rectangle (cushion new_canvas color (Some image))
  = Some (cushion_placement 2048 2048 image).
Proof. reflexivity. Qed.

Lemma cup_placement_wide (image : ImageBitmap) :
  1 < aspect image ->
  let r := cup_placement (N := Q) 2048 2048 image in
  dw r == 1536 /\ dh r == 2048 / aspect image
  /\ centre_x r == centre_x cup_region /\ centre_y r == centre_y cup_region.
Proof.
  intros Har. unfold cup_placement, centre_x, centre_y, cup_region.
  cbn [dx dy dw dh lit nadd nsub nmul ndiv nneg ngt nlt Number_Q].
  fold (aspect image).
  assert (Hgt : Qle_bool (aspect image) (inject_Z 1) = false)
    by (apply Qle_bool_false; exact Har).
  rewrite Hgt. cbn [negb].
  repeat split; try field; try lra.
Qed.

Lemma cup_placement_tall (image : ImageBitmap) :
  aspect image < 1 ->
  let r := cup_placement (N := Q) 2048 2048 image in
  dw r == 1536 * aspect image /\ dh r == 2048
  /\ centre_x r == centre_x cup_region /\ centre_y r == centre_y cup_region.
Proof.
  intros Har. unfold cup_placement, centre_x, centre_y, cup_region.
  cbn [dx dy dw dh lit nadd nsub nmul ndiv nneg ngt nlt Number_Q].
  fold (aspect image).
  assert (Hgt : Qle_bool (aspect image) (inject_Z 1) = true)
    by (apply Qle_bool_iff; unfold inject_Z; lra).
  assert (Hlt : Qle_bool (inject_Z 1) (aspect image) = false)
    by (apply Qle_bool_false; exact Har).
  rewrite Hgt, Hlt. cbn [negb].
  repeat split; try field; try lra.
Qed.

Lemma cup_placement_square (image : ImageBitmap) :
  aspect image == 1 ->
  let r := cup_placement (N := Q) 2048 2048 image in
  dw r == 1536 /\ dh r == 2048
  /\ centre_x r == centre_x cup_region /\ centre_y r == centre_y cup_region.
Proof.
  intros Har. unfold cup_placement, centre_x, centre_y, cup_region.
  cbn [dx dy dw dh lit nadd nsub nmul ndiv nneg ngt nlt Number_Q].
  fold (aspect image).
  assert (Hgt : Qle_bool (aspect image) (inject_Z 1) = true)
    by (apply Qle_bool_iff; unfold inject_Z; lra).
  assert (Hlt : Qle_bool (inject_Z 1) (aspect image) = true)
    by (apply Qle_bool_iff; unfold inject_Z; lra).
  rewrite Hgt, Hlt. cbn [negb].
  repeat split; try field; try lra.
Qed.

(** [cushion] takes the slack from the whole canvas and the inset from
    both sides of it: a wide image gets the width of the inset region and
    the height [canvas.width / aspectRatio - 400]. *)
Lemma cushion_placement_wide (image : ImageBitmap) :
  1 < aspect image ->
  let r := cushion_placement (N := Q) 2048 2048 image in
  dw r == 1648 /\ dh r == 2048 / aspect image - 400.
Proof.
  intros Har. unfold cushion_placement.
  cbn [dx dy dw dh lit nadd nsub nmul ndiv nneg ngt nlt Number_Q].
  fold (aspect image).
  assert (Hgt : Qle_bool (aspect image) (inject_Z 1) = false)
    by (apply Qle_bool_false; exact Har).
  rewrite Hgt. cbn [negb].
  split; try field; lra.
Qed.

Lemma cushion_placement_tall (image : ImageBitmap) :
  aspect image < 1 ->
  let r := cushion_placement (N := Q) 2048 2048 image in
  dw r == 2048 * aspect image - 400 /\ dh r == 1648.
Proof.
  intros Har. unfold cushion_placement.
  cbn [dx dy dw dh lit nadd nsub nmul ndiv nneg ngt nlt Number_Q].
  fold (aspect image).
  assert (Hgt : Qle_bool (aspect image) (inject_Z 1) = true)
    by (apply Qle_bool_iff; unfold inject_Z; lra).
  assert (Hlt : Qle_bool (inject_Z 1) (aspect image) = false)
    by (apply Qle_bool_false; exact Har).
  rewrite Hgt, Hlt. cbn [negb].
  split; field.
Qed.

Lemma cushion_placement_square (image : ImageBitmap) :
  aspect image == 1 ->
  let r := cushion_placement (N := Q) 2048 2048 image in
  dw r == 1648 /\ dh r == 1648.
Proof.
  intros Har. unfold cushion_placement.
  cbn [dx dy dw dh lit nadd nsub nmul ndiv nneg ngt nlt Number_Q].
  fold (aspect image).
  assert (Hgt : Qle_bool (aspect image) (inject_Z 1) = true)
    by (apply Qle_bool_iff; unfold inject_Z; lra).
  assert (Hlt : Qle_bool (inject_Z 1) (aspect image) = true)
    by (apply Qle_bool_iff; unfold inject_Z; lra).
  rewrite Hgt, Hlt. cbn [negb].
  split; field.
Qed.

(** Whatever the inset, the rectangle of [cushion] has the centre of the
    inset region: the inset is taken from both sides. *)
Lemma cushion_placement_centred (image : ImageBitmap) :
  let r := cushion_placement (N := Q) 2048 2048 image in
  centre_x r == centre_x cushion_region /\ centre_y r == centre_y cushion_region.
Proof.
  unfold cushion_placement, centre_x, centre_y, cushion_region.
  cbn [dx dy dw dh lit nadd nsub nmul ndiv nneg ngt nlt Number_Q].
  fold (aspect image).
  generalize (inject_Z 2048 / aspect image); intros q.
  destruct (negb (Qle_bool _ (inject_Z 1))); [| destruct (negb _)].
  all: split; field.
Qed.

(** ** The texture compositor *)

Lemma paint_at_fill (context : Context2D) (style : string) (i j : Z) :
  drawn context = [FillRect style identity 0 0 2048 2048] ->
  (0 <= i < 2048)%Z -> (0 <= j < 2048)%Z ->
  paint_at context i j = Flat style.
Proof.
  intros Hdrawn Hi Hj. unfold paint_at. rewrite Hdrawn.
  cbn [fold_left]. unfold paint_over, paint_of.
  destruct (preimage_identity (inject_Z i + (1 # 2)) (inject_Z j + (1 # 2)))
    as (p & Hp & Hx & Hy).
  rewrite Hp.
  assert (Hin : inside 0 0 2048 2048 p = true).
  { unfold inside. apply andb_true_iff.
    assert (H0i : inject_Z 0 <= inject_Z i) by (rewrite <- Zle_Qle; lia).
    assert (H1i : inject_Z i <= inject_Z 2047) by (rewrite <- Zle_Qle; lia).
    assert (H0j : inject_Z 0 <= inject_Z j) by (rewrite <- Zle_Qle; lia).
    assert (H1j : inject_Z j <= inject_Z 2047) by (rewrite <- Zle_Qle; lia).
    change (inject_Z 0) with 0 in H0i, H0j.
    change (inject_Z 2047) with 2047 in H1i, H1j.
    split; (apply between_spec; [lra |]).
    - rewrite Hx. lra.
    - rewrite Hy. lra. }
  now rewrite Hin.
Qed.

(** C8.  For each of the two registered routines and every color, the
    texture composited without an image is a new 2048 by 2048 canvas on
    which the only thing drawn is one rectangle of that color over the
    whole canvas, so that every pixel shows the flat color. *)
Theorem flat_fill_without_image (model_name color : string) :
  supported model_name ->
  exists canvas,
    composite model_name color None = Some canvas
    /\ canvas_width canvas = 2048%Z
    /\ canvas_height canvas = 2048%Z
    /\ drawn canvas = [FillRect color identity 0 0 2048 2048]
    /\ forall i j, (0 <= i < 2048)%Z -> (0 <= j < 2048)%Z ->
                   paint_at canvas i j = Flat color.
Proof.
  intros [-> | ->]; eexists; (split; [reflexivity |]);
    (split; [reflexivity |]); (split; [reflexivity |]);
    (split; [reflexivity |]); intros i j Hi Hj;
    apply paint_at_fill; auto.
Qed.

Lemma flat_fill_without_image_witness :
  supported "cup"
  /\ exists canvas,
    composite "cup" "#112233" None = Some canvas
    /\ canvas_width canvas = 2048%Z
    /\ canvas_height canvas = 2048%Z
    /\ drawn canvas = [FillRect "#112233" identity 0 0 2048 2048]
    /\ forall i j, (0 <= i < 2048)%Z -> (0 <= j < 2048)%Z ->
                   paint_at canvas i j = Flat "#112233".
Proof.
  split; [left; reflexivity |].
  apply (flat_fill_without_image "cup" "#112233"). left; reflexivity.
Defined.

(** C2, as amended.  For every color and every non-degenerate image of
    aspect ratio [a]: [cup] compares [a] with 1 and fits the image into
    its 1536 by 2048 region as if the region were square, so the ratio
    of the drawn width to the drawn height is three quarters of [a]; the
    rectangle has the centre of the region.  The rectangle of [cushion]
    has the centre of its 1648 by 1648 region, and is the whole region
    for a square image. *)
Theorem fitted_placement (color : string) (image : ImageBitmap) :
  non_degenerate image ->
  (exists canvas r,
      composite "cup" color (Some image) = Some canvas
      /\ image_rectangle canvas = Some r
      /\ dw r / dh r == (3 # 4) * aspect image
      /\ (1 <= aspect image -> dw r == 1536 /\ dh r == 2048 / aspect image)
      /\ (aspect image <= 1 -> dw r == 1536 * aspect image /\ dh r == 2048)
      /\ centre_x r == centre_x cup_region
      /\ centre_y r == centre_y cup_region)
  /\ (exists canvas r,
      composite "cushion" color (Some image) = Some canvas
      /\ image_rectangle canvas = Some r
      /\ (aspect image == 1 -> dw r == 1648 /\ dh r == 1648)
      /\ centre_x r == centre_x cushion_region
      /\ centre_y r == centre_y cushion_region).
Proof.
  intros Himage. pose proof (aspect_pos image Himage) as Hpos. split.
  - exists (cup new_canvas color (Some image)),
           (cup_placement 2048 2048 image).
    split; [reflexivity |]. split; [apply cup_image_rectangle |].
    destruct (Q_dec (aspect image) 1) as [[Hlt | Hgt] | Heq].
    + destruct (cup_placement_tall image Hlt) as (Hw & Hh & Hx & Hy).
      split; [rewrite Hw, Hh; field |].
      split; [intros Hge; lra |].
      split; [intros _; split; assumption |].
      split; assumption.
    + destruct (cup_placement_wide image Hgt) as (Hw & Hh & Hx & Hy).
      split; [rewrite Hw, Hh; field; lra |].
      split; [intros _; split; assumption |].
      split; [intros Hle; lra |].
      split; assumption.
    + destruct (cup_placement_square image Heq) as (Hw & Hh & Hx & Hy).
      split; [rewrite Hw, Hh, Heq; field |].
      split; [intros _; split; [assumption | rewrite Hh, Heq; field] |].
      split; [intros _; split; [rewrite Hw, Heq; field | assumption] |].
      split; assumption.
  - exists (cushion new_canvas color (Some image)),
           (cushion_placement 2048 2048 image).
    split; [reflexivity |]. split; [apply cushion_image_rectangle |].
    split; [apply cushion_placement_square |].
    apply cushion_placement_centred.
Qed.

Lemma fitted_placement_witness :
  non_degenerate wide_image
  /\ (exists canvas r,
      composite "cup" "#112233" (Some wide_image) = Some canvas
      /\ image_rectangle canvas = Some r
      /\ dw r / dh r == (3 # 4) * aspect wide_image
      /\ (1 <= aspect wide_image ->
          dw r == 1536 /\ dh r == 2048 / aspect wide_image)
      /\ (aspect wide_image <= 1 ->
          dw r == 1536 * aspect wide_image /\ dh r == 2048)
      /\ centre_x r == centre_x cup_region
      /\ centre_y r == centre_y cup_region)
  /\ (exists canvas r,
      composite "cushion" "#112233" (Some wide_image) = Some canvas
      /\ image_rectangle canvas = Some r
      /\ (aspect wide_image == 1 -> dw r == 1648 /\ dh r == 1648)
      /\ centre_x r == centre_x cushion_region
      /\ centre_y r == centre_y cushion_region).
Proof.
  assert (H : non_degenerate wide_image) by (split; reflexivity).
  split; [exact H |].
  exact (fitted_placement "#112233" wide_image H).
Defined.

(** C2, counterexample.  [cup] draws a square image 1536 wide and 2048
    high: the ratio of the drawn width to the drawn height is 3/4, the
    ratio of the image is 1. *)
Lemma cup_stretches_square_image :
  exists canvas r,
    composite "cup" "#112233" (Some square_image) = Some canvas
    /\ image_rectangle canvas = Some r
    /\ dw r == 1536 /\ dh r == 2048
    /\ ~ dw r / dh r == aspect square_image.
Proof.
  eexists; eexists. split; [reflexivity |]. split; [reflexivity |].
  split; [reflexivity |]. split; [reflexivity |].
  intros H. vm_compute in H. discriminate H.
Qed.

(** The same placement in binary64: every intermediate value is an
    integer, none is rounded. *)
Example cup_square_image_binary64 :
  cup_placement (N := float) 2048 2048 square_image
  = {| dx := 4246%float; dy := (-3072)%float;
       dw := 1536%float; dh := 2048%float |}.
Proof. vm_compute. reflexivity. Qed.

(** C3, at the failing input.  For an image twice as wide as high,
    [cushion] draws the image 1648 wide, the width of its region, and 624
    high: not 824, the width of the region divided by the aspect ratio. *)
Theorem cushion_flattens_wide_image :
  exists canvas r,
    composite "cushion" "#112233" (Some wide_image) = Some canvas
    /\ image_rectangle canvas = Some r
    /\ aspect wide_image == 2
    /\ dw r == 1648 /\ dh r == 624
    /\ ~ dh r == dw cushion_region / aspect wide_image
    /\ ~ dw r / dh r == aspect wide_image.
Proof.
  eexists; eexists. split; [reflexivity |]. split; [reflexivity |].
  split; [reflexivity |]. split; [reflexivity |]. split; [reflexivity |].
  split; intros H; vm_compute in H; discriminate H.
Qed.

Example cushion_wide_image_binary64 :
  cushion_placement (N := float) 2048 2048 wide_image
  = {| dx := (-1848)%float; dy := (-3384)%float;
       dw := 1648%float; dh := 624%float |}.
Proof. vm_compute. reflexivity. Qed.

(** From aspect ratio 5.12 on, the height [cushion] computes is not
    even positive. *)
Lemma cushion_height_not_positive (image : ImageBitmap) :
  (128 # 25) <= aspect image ->
  dh (cushion_placement (N := Q) 2048 2048 image) <= 0.
Proof.
  intros Har.
  assert (H1 : 1 < aspect image) by lra.
  destruct (cushion_placement_wide image H1) as [_ Hh]. rewrite Hh.
  assert (Hdiv : 2048 / aspect image <= 400).
  { apply Qle_shift_div_r; lra. }
  lra.
Qed.

Local Close Scope Q_scope.

(** ** The model cache *)

Lemma length_append (a s : string) :
  String.length (a ++ s)%string = String.length a + String.length s.
Proof. induction a as [| c a IH]; simpl; [reflexivity | now rewrite IH]. Qed.

Lemma append_inj_r (s a b : string) : (a ++ s = b ++ s)%string -> a = b.
Proof.
  revert b. induction a as [| c a IH]; intros [| c' b] Heq; simpl in Heq.
  - reflexivity.
  - apply (f_equal String.length) in Heq.
    rewrite !length_append in Heq. simpl in Heq. lia.
  - apply (f_equal String.length) in Heq.
    rewrite !length_append in Heq. simpl in Heq. lia.
  - injection Heq as -> Heq. f_equal. now apply IH.
Qed.

Lemma model_url_inj (a b : string) : model_url a = model_url b -> a = b.
Proof.
  unfold model_url. intros Heq.
  apply (inj (String.append "/models/")) in Heq.
  now apply append_inj_r in Heq.
Qed.

(** A hit: the cached entry, and nothing else happens. *)
Lemma loadGLTFObject_hit (asset : Asset) (key : string) (model : ModelWithMeta)
    (w : World) :
  ModelCache w !! key = Some model ->
  loadGLTFObject asset key w = (Normal (Some model), w).
Proof.
  intros Hhit. unfold loadGLTFObject, bind, gets, ret.
  rewrite Hhit. now rewrite Hhit.
Qed.

(** A miss: the fetch is made; a mesh is cached under the identifier, a
    rejection is thrown on, anything else is forgotten. *)
Lemma loadGLTFObject_miss (asset : Asset) (key : string) (w : World) :
  ModelCache w !! key = None ->
  loadGLTFObject asset key w =
  let w1 := set_fetched (fetched w ++ [(model_url key, asset)]) w in
  match asset with
  | Rejected => (Throw LoadError, w1)
  | FirstChildOther => (Normal None, w1)
  | FirstChildMesh =>
      let model := {| name := key; mesh := allocated w |} in
      (Normal (Some model),
       set_ModelCache (<[key := model]> (ModelCache w))
         (set_material (<[allocated w := AssetMaterial]> (material w))
            (set_allocated (S (allocated w)) w1)))
  end.
Proof.
  intros Hmiss.
  unfold loadGLTFObject, loadAsync_first_child, bind, gets, ret, modify,
    throw, allocate.
  rewrite Hmiss. destruct asset; cbn.
  - reflexivity.
  - now rewrite lookup_insert_eq.
  - now rewrite Hmiss.
Qed.

Lemma loadGLTFObject_returns (asset : Asset) (key : string) (w w1 : World)
    (result : option ModelWithMeta) :
  loadGLTFObject asset key w = (Normal result, w1) ->
  ModelCache w1 !! key = result.
Proof.
  destruct (ModelCache w !! key) as [model |] eqn:Hcache.
  - rewrite (loadGLTFObject_hit _ _ _ _ Hcache). intros [= <- <-]. exact Hcache.
  - rewrite (loadGLTFObject_miss _ _ _ Hcache).
    destruct asset; cbn; intros [= <- <-]; cbn.
    + apply lookup_insert_eq.
    + exact Hcache.
Qed.

(** What a call adds to the log of fetches. *)
Lemma loadGLTFObject_fetched (asset : Asset) (key : string) (w : World) :
  fetched (snd (loadGLTFObject asset key w))
  = (fetched w ++ match ModelCache w !! key with
                  | Some _ => []
                  | None => [(model_url key, asset)]
                  end).
Proof.
  destruct (ModelCache w !! key) as [model |] eqn:Hcache.
  - rewrite (loadGLTFObject_hit _ _ _ _ Hcache). cbn. now rewrite app_nil_r.
  - rewrite (loadGLTFObject_miss _ _ _ Hcache). now destruct asset.
Qed.

(** What a call does to the cache. *)
Lemma loadGLTFObject_cache (asset : Asset) (key : string) (w : World) :
  ModelCache (snd (loadGLTFObject asset key w))
  = match ModelCache w !! key, asset with
    | None, FirstChildMesh =>
        <[key := {| name := key; mesh := allocated w |}]> (ModelCache w)
    | _, _ => ModelCache w
    end.
Proof.
  destruct (ModelCache w !! key) as [model |] eqn:Hcache.
  - now rewrite (loadGLTFObject_hit _ _ _ _ Hcache).
  - rewrite (loadGLTFObject_miss _ _ _ Hcache). now destruct asset.
Qed.




Lemma fetched_once_initial (context2d : bool) :
  fetched_once (initial_world context2d).
Proof.
  split; cbn.
  - intros key [].
  - intros [| e before] key after Heq; discriminate Heq.
Qed.

Lemma fetched_once_step (asset : Asset) (key : string) (w : World) :
  fetched_once w -> fetched_once (snd (loadGLTFObject asset key w)).
Proof.
  intros [Hcached Honce]. unfold fetched_once.
  rewrite loadGLTFObject_fetched, loadGLTFObject_cache.
  destruct (ModelCache w !! key) as [model |] eqn:Hcache.
  - rewrite app_nil_r. split; assumption.
  - split.
    + intros k Hin. apply in_app_iff in Hin as [Hin | [Heq | []]].
      * specialize (Hcached k Hin).
        destruct asset; auto.
        destruct (decide (key = k)) as [-> | Hne].
        -- rewrite lookup_insert_eq. eauto.
        -- now rewrite lookup_insert_ne.
      * apply pair_equal_spec in Heq as [Hurl ->].
        apply model_url_inj in Hurl as ->.
        rewrite lookup_insert_eq. eauto.
    + intros before k after Heq a Hin.
      destruct after as [| e after _] using rev_ind; [exact Hin |].
      change (before ++ (model_url k, FirstChildMesh) :: after ++ [e])
        with (before ++ ((model_url k, FirstChildMesh) :: after) ++ [e])
        in Heq.
      rewrite app_assoc in Heq. apply app_inj_tail in Heq as [Heq <-].
      apply in_app_iff in Hin as [Hin | [Hlast | []]].
      * exact (Honce _ _ _ Heq a Hin).
      * apply pair_equal_spec in Hlast as [Hurl _].
        apply model_url_inj in Hurl as ->.
        assert (Hk : is_Some (ModelCache w !! k)).
        { apply Hcached. rewrite Heq. apply in_app_iff. right. now left. }
        rewrite Hcache in Hk. now destruct Hk.
Qed.

Lemma fetched_once_all (calls : list (string * Asset)) (w : World) :
  fetched_once w -> fetched_once (get_or_load_all calls w).
Proof.
  revert w. induction calls as [| [key asset] calls IH]; intros w Hw; cbn.
  - exact Hw.
  - apply IH. now apply fetched_once_step.
Qed.

(** C6, as amended.  In every sequence of calls of [loadGLTFObject] made
    one after the other from the start of the program, no fetch for an
    identifier follows a fetch for it that gave a mesh.  A call fetches
    exactly when its identifier is not cached at that time, and it caches
    the identifier exactly when that fetch gives a mesh: after a
    rejection, or a first child that is no mesh, the next call for the
    identifier fetches again. *)
Theorem fetch_until_first_mesh (context2d : bool)
    (calls : list (string * Asset)) :
  (forall before key after,
     fetched (get_or_load_all calls (initial_world context2d))
     = (before ++ (model_url key, FirstChildMesh) :: after) ->
     forall asset, ~ In (model_url key, asset) after)
  /\ (forall asset key w,
        fetched (snd (loadGLTFObject asset key w))
        = (fetched w ++ match ModelCache w !! key with
                        | Some _ => []
                        | None => [(model_url key, asset)]
                        end))
  /\ (forall asset key w,
        ModelCache (snd (loadGLTFObject asset key w))
        = match ModelCache w !! key, asset with
          | None, FirstChildMesh =>
              <[key := {| name := key; mesh := allocated w |}]> (ModelCache w)
          | _, _ => ModelCache w
          end).
Proof.
  split; [| split].
  - apply (fetched_once_all calls (initial_world context2d)).
    apply fetched_once_initial.
  - intros asset key w. apply loadGLTFObject_fetched.
  - intros asset key w. apply loadGLTFObject_cache.
Qed.

(** C6, counterexample.  The first child of the loaded asset is not a
    mesh: nothing is cached, and the second call for the same identifier
    fetches the asset a second time. *)
Lemma second_fetch_after_failed_load :
  fetched (get_or_load_all [("cup", FirstChildOther); ("cup", FirstChildOther)]
                           (initial_world true))
  = [("/models/cup.glb", FirstChildOther); ("/models/cup.glb", FirstChildOther)]
  /\ fetched (get_or_load_all [("cup", Rejected); ("cup", FirstChildMesh)]
                              (initial_world true))
     = [("/models/cup.glb", Rejected); ("/models/cup.glb", FirstChildMesh)].
Proof. split; reflexivity. Qed.

(** C5, at the failing input.  The loader rejects the fetch of the cup:
    [loadGLTFObject] throws instead of returning [null], the listener of
    the radio input throws with it, and the error reaches the global
    handler.  The same rejection at startup ends the session before any
    listener is installed. *)
Theorem rejected_load_is_thrown :
  fst (loadGLTFObject Rejected "cup" (initial_world true)) = Throw LoadError
  /\ fst (handle (ModelSelect "cup" Rejected) (initial_world true))
     = Throw LoadError
  /\ fst (session true None [ModelSelect "cup" Rejected]) = [LoadError]
  /\ session true (Some ("cup", Rejected)) [ModelSelect "cup" FirstChildMesh]
     = ([LoadError],
        set_fetched [("/models/cup.glb", Rejected)] (initial_world true)).
Proof. repeat split; reflexivity. Qed.

Lemma fetch_until_first_mesh_witness :
  fetched (get_or_load_all
             [("cup", Rejected); ("cup", FirstChildMesh); ("cup", Rejected)]
             (initial_world true))
  = ([("/models/cup.glb", Rejected)]
     ++ (model_url "cup", FirstChildMesh) :: [])
  /\ forall asset : Asset, ~ In (model_url "cup", asset) [].
Proof.
  split; [reflexivity |].
  destruct (fetch_until_first_mesh true
              [("cup", Rejected); ("cup", FirstChildMesh); ("cup", Rejected)])
    as [Honce _].
  apply (Honce [("/models/cup.glb", Rejected)] "cup" []).
  reflexivity.
Defined.

(** ** The preview controller *)

Lemma supported_routine (value : string) :
  supported value -> exists drawTexture, DRAW_TEXTURE_MAP value = Some drawTexture.
Proof. intros [-> | ->]; eexists; reflexivity. Qed.

Lemma composite_routine (key c : string) (image : option ImageBitmap)
    (canvas : Context2D) :
  composite key c image = Some canvas ->
  exists drawTexture,
    DRAW_TEXTURE_MAP key = Some drawTexture
    /\ canvas = drawTexture new_canvas c image.
Proof.
  unfold composite. destruct (DRAW_TEXTURE_MAP key) as [d |]; [| discriminate].
  intros [= <-]. eauto.
Qed.

Lemma lookup_routine_own (key : string) (drawTexture : DrawTexture) :
  DRAW_TEXTURE_MAP key = Some drawTexture ->
  lookup_routine key = Own drawTexture.
Proof. intros Hd. unfold lookup_routine. now rewrite Hd. Qed.

(** [applyTexture] for a model that has a routine: a new material with
    the composited texture is bound to the mesh of the model. *)
Lemma applyTexture_bound (model : ModelWithMeta) (image : option ImageBitmap)
    (c : string) (canvas : Context2D) (w : World) :
  context2d_available w = true ->
  composite (name model) c image = Some canvas ->
  applyTexture model image c w
  = (Normal tt,
     set_material (<[mesh model := CanvasMaterial (allocated w) canvas]>
                     (material w))
       (set_allocated (S (allocated w)) w)).
Proof.
  intros Hctx Hcomp. apply composite_routine in Hcomp as (d & Hd & ->).
  unfold applyTexture, bind_texture, setupBaseCanvas, bind, gets, ret, modify,
    allocate.
  rewrite Hctx, (lookup_routine_own _ _ Hd). reflexivity.
Qed.

(** [applyTexture] for a model whose name the registry does not have,
    not even by inheritance: nothing is bound and nothing is thrown. *)
Lemma applyTexture_no_routine (model : ModelWithMeta)
    (image : option ImageBitmap) (c : string) (w : World) :
  context2d_available w = true ->
  lookup_routine (name model) = Missing ->
  applyTexture model image c w = (Normal tt, w).
Proof.
  intros Hctx Hnone.
  unfold applyTexture, setupBaseCanvas, bind, gets, ret.
  now rewrite Hctx, Hnone.
Qed.

Lemma without_lights (m : Mesh) :
  without (MeshObject m) [AmbientLight; DirectionalLight]
  = [AmbientLight; DirectionalLight].
Proof. reflexivity. Qed.

Lemma without_last (m : Mesh) :
  without (MeshObject m) ([AmbientLight; DirectionalLight] ++ [MeshObject m])
  = [AmbientLight; DirectionalLight].
Proof.
  unfold without. rewrite filter_app.
  rewrite (filter_cons_False _ (MeshObject m)) by (intros Hne; now apply Hne).
  reflexivity.
Qed.

(** [loadGLTFObject] touches the log, the cache, the counter and the
    material of the mesh it creates, and nothing of the preview. *)
Lemma loadGLTFObject_frame (asset : Asset) (key : string) (w : World) :
  let w1 := snd (loadGLTFObject asset key w) in
  context2d_available w1 = context2d_available w
  /\ scene w1 = scene w
  /\ activeModel w1 = activeModel w
  /\ activeImage w1 = activeImage w
  /\ color w1 = color w.
Proof.
  destruct (ModelCache w !! key) as [model |] eqn:Hcache.
  - rewrite (loadGLTFObject_hit _ _ _ _ Hcache). cbn. auto.
  - rewrite (loadGLTFObject_miss _ _ _ Hcache). destruct asset; cbn; auto.
Qed.

(** Without a model from the cache, [setActiveModel] stops where
    [loadGLTFObject] stopped. *)
Lemma setActiveModel_failed (asset : Asset) (key : string) (w w1 : World)
    (result : Completion (option ModelWithMeta)) :
  loadGLTFObject asset key w = (result, w1) ->
  (forall model, result <> Normal (Some model)) ->
  snd (setActiveModel asset key w) = w1
  /\ fst (setActiveModel asset key w)
     = match result with Throw e => Throw e | Normal _ => Normal tt end.
Proof.
  intros Hload Hfailed. unfold setActiveModel, bind. rewrite Hload.
  destruct result as [[model |] | e]; cbn; auto.
  now destruct (Hfailed model).
Qed.

(** With a model from the cache, [setActiveModel] swaps the meshes and
    binds a new material. *)
Lemma setActiveModel_loaded (asset : Asset) (key : string) (w w1 : World)
    (newModel : ModelWithMeta) (canvas : Context2D) :
  loadGLTFObject asset key w = (Normal (Some newModel), w1) ->
  context2d_available w1 = true ->
  composite (name newModel) (color w1) (activeImage w1) = Some canvas ->
  setActiveModel asset key w
  = (Normal tt,
     set_scene
       (without (MeshObject (mesh newModel))
          (match activeModel w1 with
           | Some model => without (MeshObject (mesh model)) (scene w1)
           | None => scene w1
           end)
        ++ [MeshObject (mesh newModel)])
       (set_material
          (<[mesh newModel := CanvasMaterial (allocated w1) canvas]>
             (material w1))
          (set_allocated (S (allocated w1))
             (set_activeModel (Some newModel) w1)))).
Proof.
  intros Hload Hctx Hcomp. unfold setActiveModel, bind at 1. rewrite Hload.
  unfold bind, gets, modify, scene_remove, scene_add, ret.
  destruct (activeModel w1) as [model |] eqn:Hactive.
  - cbn. erewrite applyTexture_bound by (cbn; eassumption). reflexivity.
  - cbn. erewrite applyTexture_bound by (cbn; eassumption). reflexivity.
Qed.

Lemma coherent_initial (context2d : bool) : coherent (initial_world context2d).
Proof.
  split; cbn.
  - intros key model Hcache. now rewrite lookup_empty in Hcache.
  - intros key model Hcache. now rewrite lookup_empty in Hcache.
  - intros model [=].
  - reflexivity.
  - intros model [=].
Qed.

(** The invariant does not read the log of fetches. *)
Lemma coherent_set_fetched (l : list (string * Asset)) (w : World) :
  coherent w -> coherent (set_fetched l w).
Proof. intros [H1 H2 H3 H4 H5]. split; cbn; assumption. Qed.

Lemma coherent_loadGLTFObject (asset : Asset) (key : string) (w : World) :
  coherent w -> coherent (snd (loadGLTFObject asset key w)).
Proof.
  intros Hw. destruct (ModelCache w !! key) as [model |] eqn:Hcache.
  - now rewrite (loadGLTFObject_hit _ _ _ _ Hcache).
  - rewrite (loadGLTFObject_miss _ _ _ Hcache).
    destruct asset; cbn [snd]; try now apply coherent_set_fetched.
    destruct Hw as [Hnames Halloc Hactive Hscene Htexture]. split; cbn.
    + intros k m Hk. destruct (decide (key = k)) as [-> | Hne].
      * rewrite lookup_insert_eq in Hk. now injection Hk as <-.
      * rewrite lookup_insert_ne in Hk by assumption. eauto.
    + intros k m Hk. destruct (decide (key = k)) as [-> | Hne].
      * rewrite lookup_insert_eq in Hk. injection Hk as <-. cbn. lia.
      * rewrite lookup_insert_ne in Hk by assumption.
        specialize (Halloc k m Hk). lia.
    + intros m Hm. specialize (Hactive m Hm).
      rewrite lookup_insert_ne; [assumption |].
      intros Heq. rewrite <- Heq, Hcache in Hactive. discriminate Hactive.
    + assumption.
    + intros m Hm. destruct (Htexture m Hm) as (id & canvas & Hmat & Hid & Hcomp).
      exists id, canvas. split; [| split; [lia | assumption]].
      rewrite lookup_insert_ne; [assumption |].
      pose proof (Halloc _ _ (Hactive m Hm)). lia.
Qed.

(** A routine exists for a name whatever the color and the image. *)
Lemma composite_total (key c c' : string) (image image' : option ImageBitmap)
    (canvas : Context2D) :
  composite key c image = Some canvas ->
  exists canvas', composite key c' image' = Some canvas'.
Proof.
  intros Hcomp. apply composite_routine in Hcomp as (d & Hd & _).
  unfold composite. rewrite Hd. eauto.
Qed.

Lemma composite_supported (key c : string) (image : option ImageBitmap) :
  supported key -> exists canvas, composite key c image = Some canvas.
Proof.
  intros Hkey. destruct (supported_routine key Hkey) as [d Hd].
  unfold composite. rewrite Hd. eauto.
Qed.

(** Binding a new material with the current texture to the mesh of the
    active model keeps the invariant. *)
Lemma coherent_rebound (w w' : World) (model : ModelWithMeta) (id : nat)
    (canvas : Context2D) :
  coherent w ->
  activeModel w = Some model ->
  ModelCache w' = ModelCache w ->
  activeModel w' = activeModel w ->
  scene w' = scene w ->
  allocated w <= allocated w' ->
  id < allocated w' ->
  material w' = <[mesh model := CanvasMaterial id canvas]> (material w) ->
  composite (name model) (color w') (activeImage w') = Some canvas ->
  coherent w'.
Proof.
  intros [Hnames Halloc Hactive Hscene Htexture] Hmodel Hc Ha Hs Hle Hid Hm Hcomp.
  split.
  - rewrite Hc. exact Hnames.
  - rewrite Hc. intros k m Hk. specialize (Halloc k m Hk). lia.
  - rewrite Hc, Ha. exact Hactive.
  - rewrite Hs, Ha. exact Hscene.
  - rewrite Ha, Hmodel. intros m [= <-]. exists id, canvas.
    rewrite Hm, lookup_insert_eq. auto.
Qed.

(** The two listeners that keep the model. *)
Lemma on_image_upload_ignored (imageFile : option File) (w : World) :
  activeModel w = None \/ imageFile = None \/ imageFile = Some Undecodable ->
  on_image_upload imageFile w = (Normal tt, w).
Proof.
  unfold on_image_upload, bind, gets, ret.
  intros [Hnone | [-> | ->]].
  - rewrite Hnone. now destruct imageFile.
  - reflexivity.
  - now destruct (activeModel w).
Qed.

Lemma on_image_upload_decoded (bitmap : ImageBitmap) (model : ModelWithMeta)
    (canvas : Context2D) (w : World) :
  activeModel w = Some model ->
  context2d_available w = true ->
  composite (name model) (color w) (Some bitmap) = Some canvas ->
  on_image_upload (Some (Decodable bitmap)) w
  = (Normal tt,
     set_material (<[mesh model := CanvasMaterial (allocated w) canvas]>
                     (material w))
       (set_allocated (S (allocated w)) (set_activeImage (Some bitmap) w))).
Proof.
  intros Hmodel Hctx Hcomp.
  unfold on_image_upload, bind at 1, gets at 1. rewrite Hmodel.
  unfold try_catch, bind, gets, modify, ret, createImageBitmap. cbn.
  rewrite Hmodel.
  erewrite applyTexture_bound by (cbn; eassumption). reflexivity.
Qed.

Lemma on_color_input_bound (value : string) (model : ModelWithMeta)
    (canvas : Context2D) (w : World) :
  activeModel w = Some model ->
  context2d_available w = true ->
  composite (name model) value (activeImage w) = Some canvas ->
  on_color_input value w
  = (Normal tt,
     set_material (<[mesh model := CanvasMaterial (allocated w) canvas]>
                     (material w))
       (set_allocated (S (allocated w)) (set_color value w))).
Proof.
  intros Hmodel Hctx Hcomp.
  unfold on_color_input, bind, gets, modify, ret. cbn. rewrite Hmodel.
  erewrite applyTexture_bound by (cbn; eassumption). reflexivity.
Qed.

Lemma on_color_input_no_model (value : string) (w : World) :
  activeModel w = None ->
  on_color_input value w = (Normal tt, set_color value w).
Proof.
  intros Hnone. unfold on_color_input, bind, gets, modify, ret. cbn.
  now rewrite Hnone.
Qed.

Lemma applyTexture_context2d (model : ModelWithMeta)
    (image : option ImageBitmap) (c : string) (w : World) :
  context2d_available (snd (applyTexture model image c w))
  = context2d_available w.
Proof.
  unfold applyTexture, bind_texture, setupBaseCanvas, bind, gets, modify, ret,
    allocate, throw.
  destruct (context2d_available w) eqn:Hctx; cbn; [| exact Hctx].
  destruct (lookup_routine (name model)); cbn; exact Hctx.
Qed.

Lemma handle_context2d (event : Event) (w : World) :
  context2d_available (snd (handle event w)) = context2d_available w.
Proof.
  destruct event as [value asset | imageFile | value]; cbn [handle].
  - unfold setActiveModel, bind at 1.
    pose proof (loadGLTFObject_frame asset value w) as (Hctx & _).
    destruct (loadGLTFObject asset value w) as [[[newModel |] | e] w1];
      cbn [snd] in *; try assumption.
    unfold bind, gets, modify, scene_remove, scene_add, ret.
    destruct (activeModel w1); cbn; split_applyTexture applyTexture_context2d.
  - unfold on_image_upload, bind, gets, modify, ret, try_catch,
      createImageBitmap, throw.
    destruct imageFile as [[bitmap |] |];
      destruct (activeModel w) as [model |] eqn:Hmodel;
      cbn; rewrite ?Hmodel; try reflexivity.
    split_applyTexture applyTexture_context2d.
  - unfold on_color_input, bind, gets, modify, ret. cbn.
    destruct (activeModel w) as [model |] eqn:Hmodel; cbn; try reflexivity.
    split_applyTexture applyTexture_context2d.
Qed.

(** Every listener keeps the invariant. *)
Lemma coherent_handle (event : Event) (w : World) :
  context2d_available w = true ->
  supported_event event ->
  coherent w ->
  coherent (snd (handle event w)).
Proof.
  intros Hctx Hevent Hw.
  destruct event as [value asset | imageFile | value]; cbn [handle].
  - (* model-select *)
    pose proof (coherent_loadGLTFObject asset value w Hw) as Hw1.
    pose proof (loadGLTFObject_frame asset value w) as (Hctx1 & _).
    destruct (loadGLTFObject asset value w) as [result w1] eqn:Hload.
    cbn [snd] in Hw1, Hctx1. rewrite Hctx in Hctx1.
    destruct result as [[newModel |] | e].
    + pose proof (loadGLTFObject_returns _ _ _ _ _ Hload) as Hcached.
      pose proof (cache_names _ Hw1 _ _ Hcached) as Hname.
      destruct (composite_supported (name newModel) (color w1) (activeImage w1))
        as [canvas Hcomp]; [now rewrite Hname |].
      rewrite (setActiveModel_loaded _ _ _ _ _ _ Hload Hctx1 Hcomp). cbn [snd].
      destruct Hw1 as [Hnames Halloc Hactive Hscene Htexture]. split; cbn.
      * exact Hnames.
      * intros k m Hk. specialize (Halloc k m Hk). lia.
      * intros m [= <-]. now rewrite Hname.
      * rewrite Hscene.
        destruct (activeModel w1) as [model |];
          [rewrite without_last | rewrite app_nil_r];
          now rewrite without_lights.
      * intros m [= <-]. exists (allocated w1), canvas.
        rewrite lookup_insert_eq. auto.
    + destruct (setActiveModel_failed _ _ _ _ _ Hload) as [-> _];
        [intros model; discriminate | assumption].
    + destruct (setActiveModel_failed _ _ _ _ _ Hload) as [-> _];
        [intros model; discriminate | assumption].
  - (* image-upload *)
    destruct (activeModel w) as [model |] eqn:Hmodel;
      [| rewrite on_image_upload_ignored; auto].
    destruct imageFile as [[bitmap |] |];
      [| rewrite on_image_upload_ignored; auto
       | rewrite on_image_upload_ignored; auto].
    destruct (active_textured _ Hw _ Hmodel) as (id & canvas & _ & _ & Hcomp).
    destruct (composite_total _ _ (color w) _ (Some bitmap) _ Hcomp)
      as [canvas' Hcomp'].
    rewrite (on_image_upload_decoded _ _ _ _ Hmodel Hctx Hcomp'). cbn [snd].
    apply (coherent_rebound w _ model (allocated w) canvas' Hw Hmodel);
      cbn; auto.
  - (* color-change *)
    destruct (activeModel w) as [model |] eqn:Hmodel.
    + destruct (active_textured _ Hw _ Hmodel) as (id & canvas & _ & _ & Hcomp).
      destruct (composite_total _ _ value _ (activeImage w) _ Hcomp)
        as [canvas' Hcomp'].
      rewrite (on_color_input_bound _ _ _ _ Hmodel Hctx Hcomp'). cbn [snd].
      apply (coherent_rebound w _ model (allocated w) canvas' Hw Hmodel);
        cbn; auto.
    + rewrite (on_color_input_no_model _ _ Hmodel). cbn [snd].
      destruct Hw as [Hnames Halloc Hactive Hscene Htexture].
      split; cbn; try assumption.
      intros m Hm. rewrite Hmodel in Hm. discriminate Hm.
Qed.

Lemma coherent_dispatch (events : list Event) (w : World) :
  context2d_available w = true ->
  Forall supported_event events ->
  coherent w ->
  coherent (snd (dispatch events w)).
Proof.
  revert w. induction events as [| event events IH]; intros w Hctx Hall Hw.
  - exact Hw.
  - inversion Hall as [| ? ? Hevent Hrest]; subst.
    pose proof (coherent_handle event w Hctx Hevent Hw) as Hw1.
    pose proof (handle_context2d event w) as Hctx1. rewrite Hctx in Hctx1.
    cbn [dispatch].
    destruct (handle event w) as [[[] | e] w1]; cbn [snd] in Hw1, Hctx1.
    + now apply IH.
    + specialize (IH w1 Hctx1 Hrest Hw1).
      destruct (dispatch events w1) as [unhandled w2]. exact IH.
Qed.

Lemma coherent_session (checked : option (string * Asset))
    (events : list Event) :
  supported_checked checked ->
  Forall supported_event events ->
  coherent (snd (session true checked events)).
Proof.
  intros Hchecked Hall. unfold session, setupImagePreviewControls.
  destruct checked as [[value asset] |].
  - pose proof (coherent_handle (ModelSelect value asset) (initial_world true)
                  eq_refl Hchecked (coherent_initial true)) as Hw.
    pose proof (handle_context2d (ModelSelect value asset) (initial_world true))
      as Hctx.
    cbn [handle] in Hw, Hctx.
    destruct (setActiveModel asset value (initial_world true)) as [[[] | e] w];
      cbn [snd] in *.
    + now apply coherent_dispatch.
    + exact Hw.
  - apply coherent_dispatch; auto. apply coherent_initial.
Qed.

Lemma coherent_displays (w : World) : coherent w -> displays_active_model w.
Proof.
  intros [Hnames Halloc Hactive Hscene Htexture]. unfold displays_active_model.
  rewrite Hscene. destruct (activeModel w) as [model |]; [| reflexivity].
  split; [reflexivity |].
  destruct (Htexture model eq_refl) as (id & canvas & Hmat & _ & Hcomp). eauto.
Qed.

(** C1, as amended.  At startup and after every event of a session in
    which [getContext("2d")] gives a context, events are handled one after
    the other and the identifiers are [cup] or [cushion], the only mesh
    in the scene is the mesh of the active model, and its material
    carries the texture composited from the current image and the
    current color; with no active model the scene has no mesh. *)
Theorem preview_displays_active_model (checked : option (string * Asset))
    (events : list Event) :
  supported_checked checked ->
  Forall supported_event events ->
  displays_active_model (snd (session true checked events)).
Proof.
  intros Hchecked Hall. apply coherent_displays. now apply coherent_session.
Qed.

Lemma preview_displays_active_model_witness :
  supported_checked (Some ("cup", FirstChildMesh))
  /\ Forall supported_event sample_events
  /\ displays_active_model
       (snd (session true (Some ("cup", FirstChildMesh)) sample_events)).
Proof.
  assert (Hchecked : supported_checked (Some ("cup", FirstChildMesh)))
    by (left; reflexivity).
  assert (Hall : Forall supported_event sample_events).
  { unfold sample_events.
    repeat (constructor; [cbn; unfold supported; auto |]). constructor. }
  split; [exact Hchecked |]. split; [exact Hall |].
  exact (preview_displays_active_model _ _ Hchecked Hall).
Defined.

(** C1, counterexample.  The cushion is displayed with the texture of
    the current image and color, and the browser has no 2D context to
    give any more.  A color input sets the color, [setupBaseCanvas]
    throws, and the material of the cushion keeps the texture of the
    color of before.  And in a session that never gets a 2D context,
    the first select of the cup makes the cup the active model and
    leaves the scene without its mesh. *)
Lemma stale_texture_without_context :
  displays_active_model world_without_context
  /\ supported_event (ColorInput "#000000")
  /\ handle (ColorInput "#000000") world_without_context
     = (Throw NoContextError, set_color "#000000" world_without_context)
  /\ ~ displays_active_model
         (snd (handle (ColorInput "#000000") world_without_context))
  /\ supported_event (ModelSelect "cup" FirstChildMesh)
  /\ ~ displays_active_model
         (snd (session false None [ModelSelect "cup" FirstChildMesh])).
Proof.
  assert (Hhandle :
    handle (ColorInput "#000000") world_without_context
    = (Throw NoContextError, set_color "#000000" world_without_context))
    by (vm_compute; reflexivity).
  assert (Hmodel :
    activeModel world_without_context = Some {| name := "cushion"; mesh := 0 |})
    by (vm_compute; reflexivity).
  assert (Hold :
    material world_without_context !! 0
    = Some (CanvasMaterial 3 (cushion new_canvas "#112233" (Some wide_image))))
    by (vm_compute; reflexivity).
  split.
  { unfold displays_active_model. rewrite Hmodel. cbn [mesh name].
    split; [vm_compute; reflexivity |].
    exists 3, (cushion new_canvas "#112233" (Some wide_image)).
    split; [exact Hold | vm_compute; reflexivity]. }
  split; [exact I |]. split; [exact Hhandle |].
  split.
  { rewrite Hhandle. cbn [snd]. unfold displays_active_model.
    change (activeModel (set_color "#000000" world_without_context))
      with (activeModel world_without_context).
    rewrite Hmodel.
    intros [_ (id & canvas & Hmaterial & Hcomposite)].
    vm_compute in Hmaterial. vm_compute in Hcomposite.
    injection Hmaterial as _ <-. discriminate Hcomposite. }
  split; [now left |].
  assert (Hactive :
    activeModel (snd (session false None [ModelSelect "cup" FirstChildMesh]))
    = Some {| name := "cup"; mesh := 0 |}) by (vm_compute; reflexivity).
  unfold displays_active_model. rewrite Hactive.
  intros [Hmeshes _]. vm_compute in Hmeshes. discriminate Hmeshes.
Qed.

(** A call that gives no model leaves everything but the log of fetches
    as it was. *)
Lemma loadGLTFObject_failed (asset : Asset) (key : string) (w w1 : World)
    (result : Completion (option ModelWithMeta)) :
  loadGLTFObject asset key w = (result, w1) ->
  (forall model, result <> Normal (Some model)) ->
  w1 = set_fetched (fetched w1) w.
Proof.
  intros Hload Hfailed.
  destruct (ModelCache w !! key) as [model |] eqn:Hcache.
  - rewrite (loadGLTFObject_hit _ _ _ _ Hcache) in Hload.
    injection Hload as <- <-. now destruct (Hfailed model).
  - rewrite (loadGLTFObject_miss _ _ _ Hcache) in Hload.
    destruct asset; cbn in Hload; injection Hload as <- <-.
    + reflexivity.
    + now destruct (Hfailed {| name := key; mesh := allocated w |}).
    + reflexivity.
Qed.

(** C7.  When [loadGLTFObject] gives no model for the selected
    identifier, be it [null] or a rejection, the listener of the radio
    input leaves the active model, the image, the color, the scene, the
    materials and the cache as they were. *)
Theorem failed_select_changes_nothing (asset : Asset) (key : string)
    (w w1 : World) (result : Completion (option ModelWithMeta)) :
  loadGLTFObject asset key w = (result, w1) ->
  result = Normal None \/ (exists e, result = Throw e) ->
  let w2 := snd (handle (ModelSelect key asset) w) in
  activeModel w2 = activeModel w
  /\ activeImage w2 = activeImage w
  /\ color w2 = color w
  /\ scene w2 = scene w
  /\ material w2 = material w
  /\ ModelCache w2 = ModelCache w
  /\ allocated w2 = allocated w.
Proof.
  intros Hload Hresult.
  assert (Hfailed : forall model, result <> Normal (Some model)).
  { intros model. destruct Hresult as [-> | [e ->]]; discriminate. }
  cbn [handle].
  destruct (setActiveModel_failed _ _ _ _ _ Hload Hfailed) as [-> _].
  rewrite (loadGLTFObject_failed _ _ _ _ _ Hload Hfailed). cbn. auto 10.
Qed.

Lemma failed_select_changes_nothing_witness :
  loadGLTFObject FirstChildOther "cup" world_with_cushion
  = (Normal None,
     set_fetched (fetched world_with_cushion
                  ++ [("/models/cup.glb", FirstChildOther)])
                 world_with_cushion)
  /\ (let w2 := snd (handle (ModelSelect "cup" FirstChildOther)
                            world_with_cushion) in
      activeModel w2 = activeModel world_with_cushion
      /\ activeImage w2 = activeImage world_with_cushion
      /\ color w2 = color world_with_cushion
      /\ scene w2 = scene world_with_cushion
      /\ material w2 = material world_with_cushion
      /\ ModelCache w2 = ModelCache world_with_cushion
      /\ allocated w2 = allocated world_with_cushion).
Proof.
  assert (Hload :
    loadGLTFObject FirstChildOther "cup" world_with_cushion
    = (Normal None,
       set_fetched (fetched world_with_cushion
                    ++ [("/models/cup.glb", FirstChildOther)])
                   world_with_cushion)) by reflexivity.
  split; [exact Hload |].
  exact (failed_select_changes_nothing _ _ _ _ _ Hload (or_introl eq_refl)).
Defined.

(** X21.  With a 2D context at hand, an upload handled while no model is
    active is dropped, whatever the file: the world, [activeImage]
    included, stays as it was, and the next model-select that gets a
    model binds the texture composited from the image and the color of
    before the upload. *)
Theorem upload_without_model_is_dropped (imageFile : option File)
    (asset : Asset) (key : string) (newModel : ModelWithMeta)
    (canvas : Context2D) (w w1 : World) :
  activeModel w = None ->
  context2d_available w = true ->
  loadGLTFObject asset key w = (Normal (Some newModel), w1) ->
  composite (name newModel) (color w) (activeImage w) = Some canvas ->
  handle (ImageUpload imageFile) w = (Normal tt, w)
  /\ exists id,
       material (snd (handle (ModelSelect key asset)
                             (snd (handle (ImageUpload imageFile) w))))
       !! mesh newModel = Some (CanvasMaterial id canvas).
Proof.
  intros Hnone Hctx Hload Hcomp. cbn [handle].
  rewrite on_image_upload_ignored by auto. split; [reflexivity |]. cbn [snd].
  pose proof (loadGLTFObject_frame asset key w) as (Hctx1 & _ & _ & Himage & Hcolor).
  rewrite Hload in Hctx1, Himage, Hcolor. cbn [snd] in Hctx1, Himage, Hcolor.
  rewrite Hctx in Hctx1. rewrite <- Himage, <- Hcolor in Hcomp.
  rewrite (setActiveModel_loaded _ _ _ _ _ _ Hload Hctx1 Hcomp). cbn.
  exists (allocated w1). apply lookup_insert_eq.
Qed.

Lemma upload_without_model_is_dropped_witness :
  activeModel (initial_world true) = None
  /\ context2d_available (initial_world true) = true
  /\ loadGLTFObject FirstChildMesh "cup" (initial_world true)
     = (Normal (Some {| name := "cup"; mesh := 0 |}), world_with_cup)
  /\ composite "cup" "#ffffff" None = Some (cup new_canvas "#ffffff" None)
  /\ handle (ImageUpload (Some (Decodable square_image))) (initial_world true)
     = (Normal tt, initial_world true)
  /\ exists id,
       material (snd (handle (ModelSelect "cup" FirstChildMesh)
                        (snd (handle (ImageUpload (Some (Decodable square_image)))
                                     (initial_world true)))))
       !! 0 = Some (CanvasMaterial id (cup new_canvas "#ffffff" None)).
Proof.
  split; [reflexivity |]. split; [reflexivity |].
  split; [reflexivity |]. split; [reflexivity |].
  exact (upload_without_model_is_dropped
           (Some (Decodable square_image)) FirstChildMesh "cup"
           {| name := "cup"; mesh := 0 |} (cup new_canvas "#ffffff" None)
           (initial_world true) world_with_cup
           eq_refl eq_refl eq_refl eq_refl).
Defined.

(** C4, at the failing input.  No model is checked at startup; a
    decodable file is uploaded and then the cup is selected.  The upload
    leaves [activeImage] empty, and the cup gets the flat texture, on
    which no image is drawn. *)
Lemma upload_before_first_model_is_lost :
  activeModel (initial_world true) = None
  /\ activeImage
       (snd (session true None [ImageUpload (Some (Decodable square_image))]))
     = None
  /\ texture_of
       <$> material
             (snd (session true None
                     [ImageUpload (Some (Decodable square_image));
                      ModelSelect "cup" FirstChildMesh])) !! 0
     = Some (composite "cup" "#ffffff" None)
  /\ composite "cup" "#ffffff" None
     <> composite "cup" "#ffffff" (Some square_image).
Proof.
  split; [reflexivity |]. split; [reflexivity |]. split; [reflexivity |].
  intros Heq.
  apply (f_equal (fun c : option Context2D =>
                    from_option (fun canvas => length (drawn canvas)) 0 c))
    in Heq.
  discriminate Heq.
Qed.

(** C10, as amended.  In a coherent world in which [getContext("2d")]
    gives a context, selecting the identifier of the model that is
    already active returns the cached entry without a fetch and ends in
    the world it started from, but for one thing: the mesh of the model
    has a new material, with a texture equal to the one it replaces.
    The cache, the log of fetches, the scene, the active model, the image
    and the color are the same, and every mesh has the texture it had. *)
Theorem reselect_active_model (asset : Asset) (model : ModelWithMeta)
    (w : World) :
  coherent w ->
  context2d_available w = true ->
  activeModel w = Some model ->
  exists id canvas,
    material w !! mesh model = Some (CanvasMaterial id canvas)
    /\ allocated w <> id
    /\ loadGLTFObject asset (name model) w = (Normal (Some model), w)
    /\ handle (ModelSelect (name model) asset) w
       = (Normal tt,
          set_material
            (<[mesh model := CanvasMaterial (allocated w) canvas]> (material w))
            (set_allocated (S (allocated w)) w))
    /\ forall m,
         texture_of <$> material (snd (handle (ModelSelect (name model) asset) w))
                        !! m
         = texture_of <$> material w !! m.
Proof.
  intros Hw Hctx Hmodel.
  destruct (active_textured _ Hw _ Hmodel) as (id & canvas & Hmat & Hid & Hcomp).
  pose proof (loadGLTFObject_hit asset _ _ _ (active_cached _ Hw _ Hmodel))
    as Hload.
  assert (Hhandle :
    handle (ModelSelect (name model) asset) w
    = (Normal tt,
       set_material
         (<[mesh model := CanvasMaterial (allocated w) canvas]> (material w))
         (set_allocated (S (allocated w)) w))).
  { cbn [handle].
    rewrite (setActiveModel_loaded _ _ _ _ _ _ Hload Hctx Hcomp), Hmodel.
    assert (Hscene :
      without (MeshObject (mesh model))
        (without (MeshObject (mesh model)) (scene w))
      ++ [MeshObject (mesh model)] = scene w).
    { rewrite (scene_of_active _ Hw), Hmodel.
      now rewrite without_last, without_lights. }
    rewrite Hscene. clear - Hmodel.
    destruct w; cbn in *; subst; reflexivity. }
  exists id, canvas.
  split; [exact Hmat |]. split; [lia |]. split; [exact Hload |].
  split; [exact Hhandle |].
  intros m. rewrite Hhandle. cbn.
  destruct (decide (mesh model = m)) as [<- | Hne].
  - now rewrite lookup_insert_eq, Hmat.
  - now rewrite lookup_insert_ne.
Qed.

Lemma reselect_active_model_witness :
  coherent world_with_cushion
  /\ context2d_available world_with_cushion = true
  /\ activeModel world_with_cushion = Some {| name := "cushion"; mesh := 0 |}
  /\ exists id canvas,
       material world_with_cushion !! 0 = Some (CanvasMaterial id canvas)
       /\ allocated world_with_cushion <> id
       /\ loadGLTFObject Rejected "cushion" world_with_cushion
          = (Normal (Some {| name := "cushion"; mesh := 0 |}),
             world_with_cushion)
       /\ handle (ModelSelect "cushion" Rejected) world_with_cushion
          = (Normal tt,
             set_material
               (<[0 := CanvasMaterial (allocated world_with_cushion) canvas]>
                  (material world_with_cushion))
               (set_allocated (S (allocated world_with_cushion))
                  world_with_cushion))
       /\ forall m,
            texture_of
              <$> material (snd (handle (ModelSelect "cushion" Rejected)
                                        world_with_cushion)) !! m
            = texture_of <$> material world_with_cushion !! m.
Proof.
  assert (Hw : coherent world_with_cushion).
  { apply coherent_session; [right; reflexivity |].
    repeat (constructor; [exact I |]). constructor. }
  split; [exact Hw |]. split; [reflexivity |]. split; [reflexivity |].
  exact (reselect_active_model Rejected {| name := "cushion"; mesh := 0 |}
           world_with_cushion Hw eq_refl eq_refl).
Defined.

(** The invariant does not read the availability of a 2D context. *)
Lemma coherent_set_context2d_available (b : bool) (w : World) :
  coherent w -> coherent (set_context2d_available b w).
Proof. intros [H1 H2 H3 H4 H5]. split; cbn; assumption. Qed.

(** C10, counterexample.  The cushion is displayed, the world is
    coherent, and the browser has no 2D context to give any more.
    Selecting the cushion again takes its mesh out of the scene,
    [setupBaseCanvas] throws, and the mesh is not added again: the scene
    is left with the two lights. *)
Lemma reselect_without_context_removes_mesh :
  coherent world_without_context
  /\ activeModel world_without_context
     = Some {| name := "cushion"; mesh := 0 |}
  /\ scene world_without_context
     = [AmbientLight; DirectionalLight; MeshObject 0]
  /\ handle (ModelSelect "cushion" FirstChildMesh) world_without_context
     = (Throw NoContextError,
        set_scene [AmbientLight; DirectionalLight] world_without_context)
  /\ scene (snd (handle (ModelSelect "cushion" FirstChildMesh)
                        world_without_context))
     <> scene world_without_context.
Proof.
  assert (Hhandle :
    handle (ModelSelect "cushion" FirstChildMesh) world_without_context
    = (Throw NoContextError,
       set_scene [AmbientLight; DirectionalLight] world_without_context))
    by (vm_compute; reflexivity).
  split.
  { unfold world_without_context. apply coherent_set_context2d_available.
    unfold world_with_cushion. apply coherent_session.
    - right. reflexivity.
    - repeat (constructor; [exact I |]). constructor. }
  split; [vm_compute; reflexivity |]. split; [vm_compute; reflexivity |].
  split; [exact Hhandle |].
  rewrite Hhandle. cbn [snd set_scene scene].
  intros Hscene. vm_compute in Hscene. discriminate Hscene.
Qed.

(** * Further properties of the code *)

(** ** The placement of the image *)

Local Open Scope Q_scope.

Lemma between_bounds (lo len p : Q) :
  between lo len p = true ->
  (lo <= p /\ p < lo + len) \/ (lo + len <= p /\ p < lo).
Proof.
  unfold between. destruct (Qle_bool 0 len);
    rewrite andb_true_iff, negb_true_iff, Qle_bool_iff, Qle_bool_false; auto.
Qed.

Lemma rectangle_of_cup (color : string) (image : ImageBitmap)
    (canvas : Context2D) (r : DrawImageArgs Q) :
  composite "cup" color (Some image) = Some canvas ->
  image_rectangle canvas = Some r ->
  r = cup_placement 2048 2048 image.
Proof.
  intros Hcanvas Hr.
  change (composite "cup" color (Some image))
    with (Some (cup new_canvas color (Some image))) in Hcanvas.
  apply (inj Some) in Hcanvas. subst canvas.
  rewrite cup_image_rectangle in Hr. now apply (inj Some) in Hr.
Qed.

Lemma rectangle_of_cushion (color : string) (image : ImageBitmap)
    (canvas : Context2D) (r : DrawImageArgs Q) :
  composite "cushion" color (Some image) = Some canvas ->
  image_rectangle canvas = Some r ->
  r = cushion_placement 2048 2048 image.
Proof.
  intros Hcanvas Hr.
  change (composite "cushion" color (Some image))
    with (Some (cushion new_canvas color (Some image))) in Hcanvas.
  apply (inj Some) in Hcanvas. subst canvas.
  rewrite cushion_image_rectangle in Hr. now apply (inj Some) in Hr.
Qed.

Lemma cup_placement_inside (image : ImageBitmap) :
  non_degenerate image ->
  let r := cup_placement (N := Q) 2048 2048 image in
  0 < dw r /\ dw r <= 1536 /\ 0 < dh r /\ dh r <= 2048
  /\ (dw r == 1536 \/ dh r == 2048)
  /\ 4246 <= dx r /\ dx r + dw r <= 5782
  /\ -3072 <= dy r /\ dy r + dh r <= -1024.
Proof.
  intros Himage. pose proof (aspect_pos image Himage) as Hpos. cbv zeta.
  assert (Hsize :
    0 < dw (cup_placement (N := Q) 2048 2048 image)
    /\ dw (cup_placement (N := Q) 2048 2048 image) <= 1536
    /\ 0 < dh (cup_placement (N := Q) 2048 2048 image)
    /\ dh (cup_placement (N := Q) 2048 2048 image) <= 2048
    /\ (dw (cup_placement (N := Q) 2048 2048 image) == 1536
        \/ dh (cup_placement (N := Q) 2048 2048 image) == 2048)
    /\ centre_x (cup_placement 2048 2048 image) == centre_x cup_region
    /\ centre_y (cup_placement 2048 2048 image) == centre_y cup_region).
  { destruct (Q_dec (aspect image) 1) as [[Hlt | Hgt] | Heq].
    - destruct (cup_placement_tall image Hlt) as (Hw & Hh & Hx & Hy).
      rewrite Hw, Hh. repeat split; auto; try lra; try (right; reflexivity).
    - destruct (cup_placement_wide image Hgt) as (Hw & Hh & Hx & Hy).
      rewrite Hw, Hh.
      assert (0 < 2048 / aspect image) by (apply Qlt_shift_div_l; lra).
      assert (2048 / aspect image <= 2048) by (apply Qle_shift_div_r; lra).
      repeat split; auto; try lra; try (left; reflexivity).
    - destruct (cup_placement_square image Heq) as (Hw & Hh & Hx & Hy).
      rewrite Hw, Hh. repeat split; auto; try lra; try (left; reflexivity). }
  destruct Hsize as (H1 & H2 & H3 & H4 & H5 & Hx & Hy).
  unfold centre_x, centre_y, cup_region in Hx, Hy. cbn [dx dy dw dh] in Hx, Hy.
  unfold Qdiv in Hx, Hy. change (/ 2) with (1 # 2) in Hx, Hy.
  repeat split; auto; lra.
Qed.

(** X1.  Whatever the image, [cup] keeps the rectangle it draws inside
    its target region, with the full width or the full height of it. *)
Theorem cup_rectangle_in_region (color : string) (image : ImageBitmap)
    (canvas : Context2D) (r : DrawImageArgs Q) :
  non_degenerate image ->
  composite "cup" color (Some image) = Some canvas ->
  image_rectangle canvas = Some r ->
  0 < dw r /\ dw r <= dw cup_region
  /\ 0 < dh r /\ dh r <= dh cup_region
  /\ (dw r == dw cup_region \/ dh r == dh cup_region)
  /\ dx cup_region <= dx r
  /\ dx r + dw r <= dx cup_region + dw cup_region
  /\ dy cup_region <= dy r
  /\ dy r + dh r <= dy cup_region + dh cup_region.
Proof.
  intros Himage Hcanvas Hr.
  rewrite (rectangle_of_cup _ _ _ _ Hcanvas Hr).
  pose proof (cup_placement_inside image Himage) as H. cbv zeta in H.
  unfold cup_region. cbn [dx dy dw dh].
  destruct H as (H1 & H2 & H3 & H4 & H5 & H6 & H7 & H8 & H9).
  repeat split; auto; lra.
Qed.

Lemma cup_rectangle_in_region_witness :
  non_degenerate wide_image
  /\ composite "cup" "#112233" (Some wide_image)
     = Some (cup new_canvas "#112233" (Some wide_image))
  /\ image_rectangle (cup new_canvas "#112233" (Some wide_image))
     = Some (cup_placement 2048 2048 wide_image)
  /\ (0 < dw (cup_placement (N := Q) 2048 2048 wide_image)
      /\ dw (cup_placement (N := Q) 2048 2048 wide_image) <= dw cup_region
      /\ 0 < dh (cup_placement (N := Q) 2048 2048 wide_image)
      /\ dh (cup_placement (N := Q) 2048 2048 wide_image) <= dh cup_region
      /\ (dw (cup_placement (N := Q) 2048 2048 wide_image) == dw cup_region
          \/ dh (cup_placement (N := Q) 2048 2048 wide_image)
             == dh cup_region)
      /\ dx cup_region <= dx (cup_placement (N := Q) 2048 2048 wide_image)
      /\ dx (cup_placement (N := Q) 2048 2048 wide_image)
         + dw (cup_placement (N := Q) 2048 2048 wide_image)
         <= dx cup_region + dw cup_region
      /\ dy cup_region <= dy (cup_placement (N := Q) 2048 2048 wide_image)
      /\ dy (cup_placement (N := Q) 2048 2048 wide_image)
         + dh (cup_placement (N := Q) 2048 2048 wide_image)
         <= dy cup_region + dh cup_region).
Proof.
  assert (H : non_degenerate wide_image) by (split; reflexivity).
  split; [exact H |]. split; [reflexivity |]. split; [reflexivity |].
  exact (cup_rectangle_in_region "#112233" wide_image _ _ H eq_refl eq_refl).
Defined.

Lemma cushion_placement_inside (image : ImageBitmap) :
  non_degenerate image ->
  let r := cushion_placement (N := Q) 2048 2048 image in
  -1848 <= dx r /\ dx r <= -200
  /\ -1848 <= dx r + dw r /\ dx r + dw r <= -200
  /\ -3896 <= dy r /\ dy r <= -2248
  /\ -3896 <= dy r + dh r /\ dy r + dh r <= -2248.
Proof.
  intros Himage. pose proof (aspect_pos image Himage) as Hpos. cbv zeta.
  destruct (cushion_placement_centred image) as [Hx Hy]. cbv zeta in Hx, Hy.
  unfold centre_x, centre_y, cushion_region in Hx, Hy.
  cbn [dx dy dw dh] in Hx, Hy.
  unfold Qdiv in Hx, Hy. change (/ 2) with (1 # 2) in Hx, Hy.
  destruct (Q_dec (aspect image) 1) as [[Hlt | Hgt] | Heq].
  - destruct (cushion_placement_tall image Hlt) as (Hw & Hh). cbv zeta in Hw, Hh.
    repeat split; lra.
  - destruct (cushion_placement_wide image Hgt) as (Hw & Hh). cbv zeta in Hw, Hh.
    assert (0 < 2048 / aspect image) by (apply Qlt_shift_div_l; lra).
    assert (2048 / aspect image <= 2048) by (apply Qle_shift_div_r; lra).
    repeat split; lra.
  - destruct (cushion_placement_square image Heq) as (Hw & Hh).
    cbv zeta in Hw, Hh. repeat split; lra.
Qed.

(** ** Where the image lands on the texture *)

Lemma drawn_by_cup (color : string) (image : ImageBitmap) :
  drawn (cup new_canvas color (Some image))
  = [FillRect color identity 0 0 2048 2048;
     DrawImage image
       {| m_a := 2 # 8; m_b := 0 # 8; m_c := 0 # 8; m_d := -4 # 8;
          m_e := 0; m_f := 0 |}
       (dx (cup_placement (N := Q) 2048 2048 image))
       (dy (cup_placement (N := Q) 2048 2048 image))
       (dw (cup_placement (N := Q) 2048 2048 image))
       (dh (cup_placement (N := Q) 2048 2048 image))].
Proof. reflexivity. Qed.

Lemma drawn_by_cushion (color : string) (image : ImageBitmap) :
  drawn (cushion new_canvas color (Some image))
  = [FillRect color identity 0 0 2048 2048;
     DrawImage image
       {| m_a := 0 # 4; m_b := -2 # 4; m_c := -2 # 4; m_d := 0 # 4;
          m_e := 0; m_f := 0 |}
       (dx (cushion_placement (N := Q) 2048 2048 image))
       (dy (cushion_placement (N := Q) 2048 2048 image))
       (dw (cushion_placement (N := Q) 2048 2048 image))
       (dh (cushion_placement (N := Q) 2048 2048 image))].
Proof. reflexivity. Qed.

(** Under the transformation of [cup] the pixel centre [(X, Y)] is the
    point [(4 X, -2 Y)] of user space. *)
Lemma preimage_cup (X Y : Q) :
  exists p,
    preimage {| m_a := 2 # 8; m_b := 0 # 8; m_c := 0 # 8; m_d := -4 # 8;
                m_e := 0; m_f := 0 |} X Y = Some p
    /\ fst p == 4 * X /\ snd p == -2 * Y.
Proof.
  unfold preimage; cbn [m_a m_b m_c m_d m_e m_f].
  match goal with
  | |- context [Qeq_bool ?d 0] => change (Qeq_bool d 0) with false
  end.
  eexists; split; [reflexivity |]. cbn [fst snd]. split; field.
Qed.

(** Under the transformation of [cushion] the pixel centre [(X, Y)] is
    the point [(-2 Y, -2 X)] of user space. *)
Lemma preimage_cushion (X Y : Q) :
  exists p,
    preimage {| m_a := 0 # 4; m_b := -2 # 4; m_c := -2 # 4; m_d := 0 # 4;
                m_e := 0; m_f := 0 |} X Y = Some p
    /\ fst p == -2 * Y /\ snd p == -2 * X.
Proof.
  unfold preimage; cbn [m_a m_b m_c m_d m_e m_f].
  match goal with
  | |- context [Qeq_bool ?d 0] => change (Qeq_bool d 0) with false
  end.
  eexists; split; [reflexivity |]. cbn [fst snd]. split; field.
Qed.

(** A pixel is read at its centre. *)
Lemma paint_at_centre (context : Context2D) (i j : Z) :
  paint_at context i j
  = paint_at_point context (inject_Z i + (1 # 2)) (inject_Z j + (1 # 2)).
Proof. reflexivity. Qed.

(** The paint of a point of a canvas filled and then drawn on once. *)
Lemma paint_at_point_two (context : Context2D) (style : string) (op : DrawOp)
    (X Y : Q) :
  drawn context = [FillRect style identity 0 0 2048 2048; op] ->
  paint_at_point context X Y
  = paint_over
      (paint_over Transparent (FillRect style identity 0 0 2048 2048) X Y)
      op X Y.
Proof. intros Hdrawn. unfold paint_at_point. now rewrite Hdrawn. Qed.

(** The fill of [setupBaseCanvas] covers every point of the canvas. *)
Lemma fill_covers_canvas (style : string) (X Y : Q) :
  0 <= X -> X < 2048 -> 0 <= Y -> Y < 2048 ->
  paint_over Transparent (FillRect style identity 0 0 2048 2048) X Y
  = Flat style.
Proof.
  intros HX0 HX1 HY0 HY1. unfold paint_over, paint_of.
  destruct (preimage_identity X Y) as (p & Hp & Hx & Hy). rewrite Hp.
  assert (Hin : inside 0 0 2048 2048 p = true).
  { unfold inside. apply andb_true_iff.
    split; (apply between_spec; [lra |]).
    - rewrite Hx. lra.
    - rewrite Hy. lra. }
  now rewrite Hin.
Qed.

Lemma paint_of_fill_flat (style : string) (ctm : Matrix) (x y w h X Y : Q)
    (below : Paint) :
  (forall image u v, below <> Texel image u v) ->
  forall image u v,
    paint_over below (FillRect style ctm x y w h) X Y <> Texel image u v.
Proof.
  intros Hbelow image u v. unfold paint_over, paint_of.
  destruct (preimage ctm X Y) as [p |]; [| apply Hbelow].
  destruct (inside x y w h p); [discriminate | apply Hbelow].
Qed.

(** A texel on a canvas filled and then drawn on once comes from the
    image drawn, at a point inside the destination rectangle. *)
Lemma texel_of_two_at_point (context : Context2D) (style : string)
    (image sample : ImageBitmap) (ctm : Matrix) (x y w h X Y u v : Q) :
  drawn context
  = [FillRect style identity 0 0 2048 2048; DrawImage image ctm x y w h] ->
  paint_at_point context X Y = Texel sample u v ->
  sample = image
  /\ exists p,
       preimage ctm X Y = Some p
       /\ between x w (fst p) = true /\ between y h (snd p) = true
       /\ u = (fst p - x) / w * inject_Z (image_width image)
       /\ v = (snd p - y) / h * inject_Z (image_height image).
Proof.
  intros Hdrawn Hpaint. rewrite (paint_at_point_two _ _ _ _ _ Hdrawn) in Hpaint.
  unfold paint_over at 1 in Hpaint. cbn [paint_of] in Hpaint.
  destruct (preimage ctm _ _) as [p |] eqn:Hp.
  - destruct (inside x y w h p) eqn:Hin.
    + injection Hpaint as <- <- <-. split; [reflexivity |].
      exists p. unfold inside in Hin. apply andb_true_iff in Hin as [Hx Hy].
      auto.
    + exfalso. revert Hpaint. apply paint_of_fill_flat. discriminate.
  - exfalso. revert Hpaint. apply paint_of_fill_flat. discriminate.
Qed.

Lemma texel_of_two (context : Context2D) (style : string)
    (image sample : ImageBitmap) (ctm : Matrix) (x y w h : Q) (i j : Z)
    (u v : Q) :
  drawn context
  = [FillRect style identity 0 0 2048 2048; DrawImage image ctm x y w h] ->
  paint_at context i j = Texel sample u v ->
  sample = image
  /\ exists p,
       preimage ctm (inject_Z i + (1 # 2)) (inject_Z j + (1 # 2)) = Some p
       /\ between x w (fst p) = true /\ between y h (snd p) = true
       /\ u = (fst p - x) / w * inject_Z (image_width image)
       /\ v = (snd p - y) / h * inject_Z (image_height image).
Proof.
  intros Hdrawn Hpaint. rewrite paint_at_centre in Hpaint.
  exact (texel_of_two_at_point _ _ _ _ _ _ _ _ _ _ _ _ _ Hdrawn Hpaint).
Qed.

Lemma fraction_bounds (t d W : Q) :
  0 <= t -> t < d -> 0 < W -> 0 <= t / d * W /\ t / d * W < W.
Proof.
  intros Ht Htd HW. assert (Hd : 0 < d) by lra.
  assert (H0 : 0 <= t / d) by (apply Qle_shift_div_l; lra).
  assert (H1 : t / d < 1) by (apply Qlt_shift_div_r; lra).
  split.
  - apply Qmult_le_0_compat; lra.
  - assert (H2 : t / d * W < 1 * W) by (apply Qmult_lt_compat_r; assumption).
    now rewrite Qmult_1_l in H2.
Qed.

Lemma pixel_ge (n i : Z) : inject_Z n - 1 < inject_Z i -> (n <= i)%Z.
Proof.
  intros H. assert (H' : inject_Z (n - 1) < inject_Z i).
  { replace (n - 1)%Z with (n + -1)%Z by lia.
    rewrite inject_Z_plus. change (inject_Z (-1)) with (-1). lra. }
  rewrite <- Zlt_Qlt in H'. lia.
Qed.

Lemma pixel_le (n i : Z) : inject_Z i < inject_Z n + 1 -> (i <= n)%Z.
Proof.
  intros H. assert (H' : inject_Z i < inject_Z (n + 1)).
  { rewrite inject_Z_plus. change (inject_Z 1) with 1. lra. }
  rewrite <- Zlt_Qlt in H'. lia.
Qed.

(** X2.  Whatever the image, the points of the texture of [cup] that
    the image covers have 1061.5 <= x < 1445.5 and 512 < y <= 1536 on the
    2048 by 2048 canvas, so that a pixel with such a point in its interior
    is in columns 1061 to 1445 and rows 512 to 1535; what the point shows
    is a point inside the image. *)
Theorem cup_image_lands (color : string) (image sample : ImageBitmap)
    (canvas : Context2D) (X Y u v : Q) (i j : Z) :
  non_degenerate image ->
  composite "cup" color (Some image) = Some canvas ->
  paint_at_point canvas X Y = Texel sample u v ->
  inject_Z i < X /\ X < inject_Z i + 1 ->
  inject_Z j < Y /\ Y < inject_Z j + 1 ->
  sample = image
  /\ (2123 # 2) <= X /\ X < (2891 # 2) /\ 512 < Y /\ Y <= 1536
  /\ (1061 <= i <= 1445)%Z /\ (512 <= j <= 1535)%Z
  /\ 0 <= u /\ u < inject_Z (image_width image)
  /\ 0 <= v /\ v < inject_Z (image_height image).
Proof.
  intros Himage Hcanvas Hpaint [Hi0 Hi1] [Hj0 Hj1].
  change (composite "cup" color (Some image))
    with (Some (cup new_canvas color (Some image))) in Hcanvas.
  apply (inj Some) in Hcanvas. subst canvas.
  destruct (texel_of_two_at_point _ _ _ _ _ _ _ _ _ _ _ _ _
              (drawn_by_cup color image) Hpaint)
    as (-> & p & Hp & Hx & Hy & -> & ->).
  destruct (preimage_cup X Y) as (p' & Hp' & Hfst & Hsnd).
  rewrite Hp in Hp'. injection Hp' as <-.
  pose proof (cup_placement_inside image Himage) as Hr. cbv zeta in Hr.
  destruct Hr as (Hw0 & Hw1 & Hh0 & Hh1 & _ & Hx0 & Hx1 & Hy0 & Hy1).
  apply between_spec in Hx; [| lra]. apply between_spec in Hy; [| lra].
  destruct Hx as [Hxl Hxr]. destruct Hy as [Hyl Hyr].
  destruct Himage as [HW HH].
  assert (HWq : 0 < inject_Z (image_width image))
    by (change 0 with (inject_Z 0); now rewrite <- Zlt_Qlt).
  assert (HHq : 0 < inject_Z (image_height image))
    by (change 0 with (inject_Z 0); now rewrite <- Zlt_Qlt).
  assert (HX0 : (2123 # 2) <= X) by lra.
  assert (HX1 : X < (2891 # 2)) by lra.
  assert (HY0 : 512 < Y) by lra.
  assert (HY1 : Y <= 1536) by lra.
  split; [reflexivity |].
  repeat (split; [assumption |]).
  split; [split; [apply pixel_ge | apply pixel_le];
          change (inject_Z 1061) with 1061; change (inject_Z 1445) with 1445;
          lra |].
  split; [split; [apply pixel_ge | apply pixel_le];
          change (inject_Z 512) with 512; change (inject_Z 1535) with 1535;
          lra |].
  split; [apply fraction_bounds; lra |].
  split; [apply fraction_bounds; lra |].
  split; apply fraction_bounds; lra.
Qed.

(** X3.  Whatever the image, the pixels of the texture of [cushion]
    that show the image are in columns 1124 to 1947 and rows 100 to 923
    of the canvas: the image never leaves the inset region, also when the
    computed width or height is negative. *)
Theorem cushion_image_lands (color : string) (image sample : ImageBitmap)
    (canvas : Context2D) (i j : Z) (u v : Q) :
  non_degenerate image ->
  composite "cushion" color (Some image) = Some canvas ->
  paint_at canvas i j = Texel sample u v ->
  sample = image /\ (1124 <= i <= 1947)%Z /\ (100 <= j <= 923)%Z.
Proof.
  intros Himage Hcanvas Hpaint.
  change (composite "cushion" color (Some image))
    with (Some (cushion new_canvas color (Some image))) in Hcanvas.
  apply (inj Some) in Hcanvas. subst canvas.
  destruct (texel_of_two _ _ _ _ _ _ _ _ _ _ _ _ _
              (drawn_by_cushion color image) Hpaint)
    as (-> & p & Hp & Hx & Hy & _ & _).
  destruct (preimage_cushion (inject_Z i + (1 # 2)) (inject_Z j + (1 # 2)))
    as (p' & Hp' & Hfst & Hsnd).
  rewrite Hp in Hp'. injection Hp' as <-.
  pose proof (cushion_placement_inside image Himage) as Hr. cbv zeta in Hr.
  destruct Hr as (Hx0 & Hx1 & Hx2 & Hx3 & Hy0 & Hy1 & Hy2 & Hy3).
  apply between_bounds in Hx. apply between_bounds in Hy.
  split; [reflexivity |].
  split; (split; [apply pixel_ge | apply pixel_le]);
    change (inject_Z 1124) with 1124; change (inject_Z 1947) with 1947;
    change (inject_Z 100) with 100; change (inject_Z 923) with 923;
    destruct Hx as [[? ?] | [? ?]]; destruct Hy as [[? ?] | [? ?]]; lra.
Qed.

(** X4.  Every point of a composited texture is covered by the color or
    by the image: none is left unpainted, and nothing else is drawn. *)
Theorem texture_shows_color_or_image (model_name color : string)
    (image : option ImageBitmap) (canvas : Context2D) (X Y : Q) :
  composite model_name color image = Some canvas ->
  0 <= X /\ X < 2048 -> 0 <= Y /\ Y < 2048 ->
  paint_at_point canvas X Y = Flat color
  \/ exists bitmap u v,
       image = Some bitmap /\ paint_at_point canvas X Y = Texel bitmap u v.
Proof.
  intros Hcanvas [HX0 HX1] [HY0 HY1].
  pose proof (fill_covers_canvas color X Y HX0 HX1 HY0 HY1) as Hfill.
  apply composite_routine in Hcanvas as (d & Hd & ->).
  unfold DRAW_TEXTURE_MAP in Hd.
  assert (Hcases : d = cup \/ d = cushion).
  { destruct (String.eqb model_name "cup"); [left; congruence |].
    destruct (String.eqb model_name "cushion"); [right; congruence |].
    discriminate Hd. }
  destruct image as [bitmap |].
  - assert (Htwo : exists ctm x y w h,
      drawn (d new_canvas color (Some bitmap))
      = [FillRect color identity 0 0 2048 2048; DrawImage bitmap ctm x y w h]).
    { destruct Hcases as [-> | ->]; repeat eexists; reflexivity. }
    destruct Htwo as (ctm & x & y & w & h & Htwo).
    rewrite (paint_at_point_two _ _ _ _ _ Htwo), Hfill.
    unfold paint_over, paint_of.
    destruct (preimage ctm _ _) as [p |]; [| now left].
    destruct (inside x y w h p); [right; eauto | now left].
  - left.
    assert (Hone : drawn (d new_canvas color None)
                   = [FillRect color identity 0 0 2048 2048])
      by (destruct Hcases as [-> | ->]; reflexivity).
    unfold paint_at_point. rewrite Hone. exact Hfill.
Qed.

Lemma cup_image_lands_witness :
  non_degenerate square_image
  /\ composite "cup" "#112233" (Some square_image)
     = Some (cup new_canvas "#112233" (Some square_image))
  /\ (inject_Z 1445 < (5781 # 4) /\ (5781 # 4) < inject_Z 1445 + 1)
  /\ (inject_Z 1000 < (4001 # 4) /\ (4001 # 4) < inject_Z 1000 + 1)
  /\ exists u v,
       paint_at_point (cup new_canvas "#112233" (Some square_image))
                      (5781 # 4) (4001 # 4)
       = Texel square_image u v
       /\ (square_image = square_image
           /\ (2123 # 2) <= (5781 # 4) /\ (5781 # 4) < (2891 # 2)
           /\ 512 < (4001 # 4) /\ (4001 # 4) <= 1536
           /\ (1061 <= 1445 <= 1445)%Z /\ (512 <= 1000 <= 1535)%Z
           /\ 0 <= u /\ u < inject_Z (image_width square_image)
           /\ 0 <= v /\ v < inject_Z (image_height square_image)).
Proof.
  assert (H : non_degenerate square_image) by (split; reflexivity).
  assert (Hi : inject_Z 1445 < (5781 # 4) /\ (5781 # 4) < inject_Z 1445 + 1)
    by (split; reflexivity).
  assert (Hj : inject_Z 1000 < (4001 # 4) /\ (4001 # 4) < inject_Z 1000 + 1)
    by (split; reflexivity).
  split; [exact H |]. split; [reflexivity |].
  split; [exact Hi |]. split; [exact Hj |].
  eexists. eexists. split; [vm_compute; reflexivity |].
  refine (cup_image_lands "#112233" square_image square_image _
            (5781 # 4) (4001 # 4) _ _ 1445 1000 H eq_refl _ Hi Hj).
  vm_compute; reflexivity.
Defined.

Lemma cushion_image_lands_witness :
  non_degenerate very_wide_image
  /\ composite "cushion" "#112233" (Some very_wide_image)
     = Some (cushion new_canvas "#112233" (Some very_wide_image))
  /\ exists u v,
       paint_at (cushion new_canvas "#112233" (Some very_wide_image)) 1540 500
       = Texel very_wide_image u v
       /\ (very_wide_image = very_wide_image
           /\ (1124 <= 1540 <= 1947)%Z /\ (100 <= 500 <= 923)%Z).
Proof.
  assert (H : non_degenerate very_wide_image) by (split; reflexivity).
  split; [exact H |]. split; [reflexivity |].
  eexists. eexists. split; [vm_compute; reflexivity |].
  refine (cushion_image_lands "#112233" very_wide_image very_wide_image _
            1540 500 _ _ H eq_refl _).
  vm_compute; reflexivity.
Defined.

Lemma texture_shows_color_or_image_witness :
  composite "cushion" "#112233" (Some wide_image)
  = Some (cushion new_canvas "#112233" (Some wide_image))
  /\ (0 <= (6001 # 4) /\ (6001 # 4) < 2048)
  /\ (0 <= (2003 # 4) /\ (2003 # 4) < 2048)
  /\ (paint_at_point (cushion new_canvas "#112233" (Some wide_image))
                     (6001 # 4) (2003 # 4)
      = Flat "#112233"
      \/ exists bitmap u v,
           Some wide_image = Some bitmap
           /\ paint_at_point (cushion new_canvas "#112233" (Some wide_image))
                             (6001 # 4) (2003 # 4)
              = Texel bitmap u v).
Proof.
  assert (HX : 0 <= (6001 # 4) /\ (6001 # 4) < 2048)
    by (split; [discriminate | reflexivity]).
  assert (HY : 0 <= (2003 # 4) /\ (2003 # 4) < 2048)
    by (split; [discriminate | reflexivity]).
  split; [reflexivity |]. split; [exact HX |]. split; [exact HY |].
  exact (texture_shows_color_or_image "cushion" "#112233" (Some wide_image)
           _ (6001 # 4) (2003 # 4) eq_refl HX HY).
Defined.

(** ** The edges of [cushion] and of the registry *)

(** X5.  From aspect ratio 5.12 on, [cushion] passes [drawImage] the
    full width of its region and a height that is zero or negative; up to
    aspect ratio 25/128 it passes the full height and a width that is zero
    or negative. *)
Theorem cushion_rectangle_collapses (color : string) (image : ImageBitmap)
    (canvas : Context2D) (r : DrawImageArgs Q) :
  composite "cushion" color (Some image) = Some canvas ->
  image_rectangle canvas = Some r ->
  ((128 # 25) <= aspect image -> dw r == 1648 /\ dh r <= 0)
  /\ (aspect image <= (25 # 128) -> dw r <= 0 /\ dh r == 1648).
Proof.
  intros Hcanvas Hr. rewrite (rectangle_of_cushion _ _ _ _ Hcanvas Hr).
  split; intros Ha.
  - assert (H1 : 1 < aspect image) by lra.
    destruct (cushion_placement_wide image H1) as [Hw Hh]. cbv zeta in Hw, Hh.
    split; [exact Hw |]. rewrite Hh.
    assert (Hdiv : 2048 / aspect image <= 400) by (apply Qle_shift_div_r; lra).
    lra.
  - assert (H1 : aspect image < 1) by lra.
    destruct (cushion_placement_tall image H1) as [Hw Hh]. cbv zeta in Hw, Hh.
    split; [| exact Hh]. rewrite Hw. lra.
Qed.

Lemma cushion_rectangle_collapses_witness :
  composite "cushion" "#112233" (Some very_wide_image)
  = Some (cushion new_canvas "#112233" (Some very_wide_image))
  /\ image_rectangle (cushion new_canvas "#112233" (Some very_wide_image))
     = Some (cushion_placement 2048 2048 very_wide_image)
  /\ (128 # 25) <= aspect very_wide_image
  /\ dw (cushion_placement (N := Q) 2048 2048 very_wide_image) == 1648
  /\ dh (cushion_placement (N := Q) 2048 2048 very_wide_image) <= 0
  /\ composite "cushion" "#112233" (Some very_tall_image)
     = Some (cushion new_canvas "#112233" (Some very_tall_image))
  /\ image_rectangle (cushion new_canvas "#112233" (Some very_tall_image))
     = Some (cushion_placement 2048 2048 very_tall_image)
  /\ aspect very_tall_image <= (25 # 128)
  /\ dw (cushion_placement (N := Q) 2048 2048 very_tall_image) <= 0
  /\ dh (cushion_placement (N := Q) 2048 2048 very_tall_image) == 1648.
Proof.
  assert (Hwide : (128 # 25) <= aspect very_wide_image)
    by (vm_compute; discriminate).
  assert (Htall : aspect very_tall_image <= (25 # 128))
    by (vm_compute; discriminate).
  destruct (cushion_rectangle_collapses "#112233" very_wide_image _ _
              eq_refl eq_refl) as [Hw _].
  destruct (cushion_rectangle_collapses "#112233" very_tall_image _ _
              eq_refl eq_refl) as [_ Ht].
  destruct (Hw Hwide) as [Hw1 Hw2]. destruct (Ht Htall) as [Ht1 Ht2].
  repeat (split; [first [reflexivity | assumption] |]). assumption.
Defined.

Example cushion_very_wide_image_binary64 :
  PrimFloat.ltb (dh (cushion_placement (N := float) 2048 2048 very_wide_image))
                PrimFloat.zero = true.
Proof. vm_compute. reflexivity. Qed.

Local Close Scope Q_scope.

Lemma unsupported_no_routine (value : string) :
  DRAW_TEXTURE_MAP value = None <-> ~ supported value.
Proof.
  unfold DRAW_TEXTURE_MAP, supported.
  destruct (String.eqb_spec value "cup") as [-> | Hcup].
  - split; [discriminate | intros H; destruct H; now left].
  - destruct (String.eqb_spec value "cushion") as [-> | Hcushion].
    + split; [discriminate | intros H; destruct H; now right].
    + split; [intros _ [H | H]; contradiction | reflexivity].
Qed.

Lemma existsb_eqb_In (value : string) (names : list string) :
  existsb (String.eqb value) names = true <-> In value names.
Proof.
  rewrite existsb_exists. split.
  - intros (x & Hin & Heq). apply String.eqb_eq in Heq. now subst.
  - intros Hin. exists value. split; [exact Hin | apply String.eqb_refl].
Qed.

(** What [DRAW_TEXTURE_MAP[name]] gives, by the name. *)
Lemma lookup_routine_spec (value : string) :
  match lookup_routine value with
  | Own drawTexture => DRAW_TEXTURE_MAP value = Some drawTexture
  | InheritedReturning =>
      DRAW_TEXTURE_MAP value = None /\ In value inherited_returning
  | InheritedThrowing =>
      DRAW_TEXTURE_MAP value = None /\ In value inherited_throwing
  | Missing =>
      DRAW_TEXTURE_MAP value = None
      /\ ~ In value inherited_returning /\ ~ In value inherited_throwing
  end.
Proof.
  unfold lookup_routine.
  destruct (DRAW_TEXTURE_MAP value) as [d |]; [reflexivity |].
  destruct (existsb (String.eqb value) inherited_returning) eqn:Hr.
  - split; [reflexivity | now apply existsb_eqb_In].
  - destruct (existsb (String.eqb value) inherited_throwing) eqn:Ht.
    + split; [reflexivity | now apply existsb_eqb_In].
    + split; [reflexivity |].
      split; intros Hin; apply existsb_eqb_In in Hin; congruence.
Qed.

Lemma lookup_returning (value : string) :
  In value inherited_returning -> lookup_routine value = InheritedReturning.
Proof.
  intros Hin. unfold inherited_returning in Hin. cbn [In] in Hin.
  destruct Hin as [<- | [<- | []]]; reflexivity.
Qed.

Lemma lookup_throwing (value : string) :
  In value inherited_throwing -> lookup_routine value = InheritedThrowing.
Proof.
  intros Hin. unfold inherited_throwing in Hin. cbn [In] in Hin.
  repeat (destruct Hin as [<- | Hin]; [reflexivity |]). destruct Hin.
Qed.

Lemma lookup_missing (value : string) :
  ~ supported value ->
  ~ In value inherited_returning -> ~ In value inherited_throwing ->
  lookup_routine value = Missing.
Proof.
  intros Hs Hr Ht. apply unsupported_no_routine in Hs.
  unfold lookup_routine. rewrite Hs.
  destruct (existsb (String.eqb value) inherited_returning) eqn:Er;
    [apply existsb_eqb_In in Er; contradiction |].
  destruct (existsb (String.eqb value) inherited_throwing) eqn:Et;
    [apply existsb_eqb_In in Et; contradiction |].
  reflexivity.
Qed.

Lemma lookup_supported (value : string) :
  supported value -> exists drawTexture, lookup_routine value = Own drawTexture.
Proof. intros [-> | ->]; eexists; reflexivity. Qed.

(** [applyTexture] in full. *)
Lemma applyTexture_cases (model : ModelWithMeta) (image : option ImageBitmap)
    (c : string) (w : World) :
  applyTexture model image c w
  = if context2d_available w
    then match lookup_routine (name model) with
         | Own drawTexture =>
             (Normal tt,
              set_material
                (<[mesh model :=
                     CanvasMaterial (allocated w)
                                    (drawTexture new_canvas c image)]>
                   (material w))
                (set_allocated (S (allocated w)) w))
         | InheritedReturning =>
             (Normal tt,
              set_material
                (<[mesh model := CanvasMaterial (allocated w) new_canvas]>
                   (material w))
                (set_allocated (S (allocated w)) w))
         | InheritedThrowing => (Throw TypeError, w)
         | Missing => (Normal tt, w)
         end
    else (Throw NoContextError, w).
Proof.
  unfold applyTexture, bind_texture, setupBaseCanvas, bind, gets, ret, modify,
    allocate, throw.
  destruct (context2d_available w); [| reflexivity].
  now destruct (lookup_routine (name model)).
Qed.

(** X6.  With a 2D context at hand, what [applyTexture] does goes by what
    the registry gives for the name of the model.  The registry has a
    routine of its own for [cup] and [cushion] only.  For [constructor]
    and [toString] it gives a function inherited from [Object.prototype]
    that returns without drawing: the mesh gets a material with the blank
    canvas.  For the other ten names of [Object.prototype] the call
    throws a [TypeError] and nothing is bound.  For every other name the
    registry gives nothing, and [applyTexture] returns with the world,
    the materials included, as it was. *)
Theorem texture_by_registry_lookup (model : ModelWithMeta)
    (image : option ImageBitmap) (c : string) (w : World) :
  context2d_available w = true ->
  (composite (name model) c image = None <-> ~ supported (name model))
  /\ (~ supported (name model) ->
      ~ In (name model) inherited_returning ->
      ~ In (name model) inherited_throwing ->
      applyTexture model image c w = (Normal tt, w))
  /\ (In (name model) inherited_returning ->
      applyTexture model image c w
      = (Normal tt,
         set_material
           (<[mesh model := CanvasMaterial (allocated w) new_canvas]>
              (material w))
           (set_allocated (S (allocated w)) w)))
  /\ (In (name model) inherited_throwing ->
      applyTexture model image c w = (Throw TypeError, w)).
Proof.
  intros Hctx. split; [| split; [| split]].
  - rewrite <- unsupported_no_routine. unfold composite.
    destruct (DRAW_TEXTURE_MAP (name model)); split; congruence.
  - intros Hs Hr Ht.
    now rewrite applyTexture_cases, Hctx, (lookup_missing _ Hs Hr Ht).
  - intros Hr. now rewrite applyTexture_cases, Hctx, (lookup_returning _ Hr).
  - intros Ht. now rewrite applyTexture_cases, Hctx, (lookup_throwing _ Ht).
Qed.

Lemma texture_by_registry_lookup_witness :
  context2d_available world_with_cushion = true
  /\ (~ supported "vase"
      /\ ~ In "vase" inherited_returning /\ ~ In "vase" inherited_throwing)
  /\ applyTexture {| name := "vase"; mesh := 0 |} (Some wide_image) "#112233"
                  world_with_cushion
     = (Normal tt, world_with_cushion)
  /\ In "constructor" inherited_returning
  /\ applyTexture {| name := "constructor"; mesh := 0 |} (Some wide_image)
                  "#112233" world_with_cushion
     = (Normal tt,
        set_material
          (<[0 := CanvasMaterial (allocated world_with_cushion) new_canvas]>
             (material world_with_cushion))
          (set_allocated (S (allocated world_with_cushion))
             world_with_cushion))
  /\ In "valueOf" inherited_throwing
  /\ applyTexture {| name := "valueOf"; mesh := 0 |} (Some wide_image)
                  "#112233" world_with_cushion
     = (Throw TypeError, world_with_cushion).
Proof.
  assert (Hs : ~ supported "vase") by (intros [H | H]; discriminate H).
  assert (Hr : ~ In "vase" inherited_returning)
    by (intros H; apply existsb_eqb_In in H; discriminate H).
  assert (Ht : ~ In "vase" inherited_throwing)
    by (intros H; apply existsb_eqb_In in H; discriminate H).
  assert (Hr' : In "constructor" inherited_returning)
    by (now apply existsb_eqb_In).
  assert (Ht' : In "valueOf" inherited_throwing)
    by (now apply existsb_eqb_In).
  split; [reflexivity |]. split; [auto |].
  split.
  { destruct (texture_by_registry_lookup {| name := "vase"; mesh := 0 |}
                (Some wide_image) "#112233" world_with_cushion eq_refl)
      as (_ & H & _).
    exact (H Hs Hr Ht). }
  split; [exact Hr' |].
  split.
  { destruct (texture_by_registry_lookup {| name := "constructor"; mesh := 0 |}
                (Some wide_image) "#112233" world_with_cushion eq_refl)
      as (_ & _ & H & _).
    exact (H Hr'). }
  split; [exact Ht' |].
  destruct (texture_by_registry_lookup {| name := "valueOf"; mesh := 0 |}
              (Some wide_image) "#112233" world_with_cushion eq_refl)
    as (_ & _ & _ & H).
  exact (H Ht').
Defined.

(** ** The cache and the log of fetches *)

(** The entries of the cache are well formed: each is stored under its
    own name, its mesh exists and has a material, and no two entries
    share a mesh. *)
Lemma cache_entries_step (asset : Asset) (key : string) (w : World) :
  (forall k model, ModelCache w !! k = Some model ->
     name model = k /\ mesh model < allocated w
     /\ is_Some (material w !! mesh model)) ->
  forall k model,
    ModelCache (snd (loadGLTFObject asset key w)) !! k = Some model ->
    name model = k
    /\ mesh model < allocated (snd (loadGLTFObject asset key w))
    /\ is_Some (material (snd (loadGLTFObject asset key w)) !! mesh model).
Proof.
  intros Hw k model.
  destruct (ModelCache w !! key) as [cached |] eqn:Hcache.
  - rewrite (loadGLTFObject_hit _ _ _ _ Hcache). apply Hw.
  - rewrite (loadGLTFObject_miss _ _ _ Hcache).
    destruct asset; cbn; try apply Hw.
    destruct (decide (key = k)) as [-> | Hne].
    + rewrite lookup_insert_eq. intros [= <-]. cbn.
      rewrite lookup_insert_eq. split; [reflexivity |]. split; [lia | eauto].
    + rewrite lookup_insert_ne by assumption. intros Hk.
      destruct (Hw k model Hk) as (Hname & Hlt & Hmat).
      split; [exact Hname |]. split; [lia |].
      rewrite lookup_insert_ne by lia. exact Hmat.
Qed.

Lemma cache_meshes_step (asset : Asset) (key : string) (w : World) :
  (forall k model, ModelCache w !! k = Some model -> mesh model < allocated w) ->
  (forall k1 k2 m1 m2,
     ModelCache w !! k1 = Some m1 -> ModelCache w !! k2 = Some m2 ->
     mesh m1 = mesh m2 -> k1 = k2) ->
  forall k1 k2 m1 m2,
    ModelCache (snd (loadGLTFObject asset key w)) !! k1 = Some m1 ->
    ModelCache (snd (loadGLTFObject asset key w)) !! k2 = Some m2 ->
    mesh m1 = mesh m2 -> k1 = k2.
Proof.
  intros Hlt Hinj k1 k2 m1 m2. rewrite loadGLTFObject_cache.
  destruct (ModelCache w !! key) as [cached |] eqn:Hcache; [apply Hinj |].
  destruct asset; try apply Hinj.
  destruct (decide (key = k1)) as [<- | Hne1];
    destruct (decide (key = k2)) as [<- | Hne2]; try reflexivity.
  - rewrite lookup_insert_eq, lookup_insert_ne by assumption.
    intros [= <-] H2 Hmesh. cbn in Hmesh. specialize (Hlt _ _ H2). lia.
  - rewrite lookup_insert_eq, lookup_insert_ne by assumption.
    intros H1 [= <-] Hmesh. cbn in Hmesh. specialize (Hlt _ _ H1). lia.
  - rewrite !lookup_insert_ne by assumption. apply Hinj.
Qed.

(** X7.  After any sequence of calls of [loadGLTFObject] from the start
    of the program, every entry of the cache is stored under its own
    name, with a mesh that has a material, and two identifiers never
    share a mesh. *)
Theorem cache_entries_well_formed (context2d : bool)
    (calls : list (string * Asset)) :
  let w := get_or_load_all calls (initial_world context2d) in
  (forall key model,
     ModelCache w !! key = Some model ->
     name model = key /\ is_Some (material w !! mesh model))
  /\ (forall key1 key2 model1 model2,
        ModelCache w !! key1 = Some model1 ->
        ModelCache w !! key2 = Some model2 ->
        mesh model1 = mesh model2 -> key1 = key2).
Proof.
  cbv zeta. unfold get_or_load_all.
  assert (Hgen : forall w,
    (forall k model, ModelCache w !! k = Some model ->
       name model = k /\ mesh model < allocated w
       /\ is_Some (material w !! mesh model)) ->
    (forall k1 k2 m1 m2,
       ModelCache w !! k1 = Some m1 -> ModelCache w !! k2 = Some m2 ->
       mesh m1 = mesh m2 -> k1 = k2) ->
    let w' := fold_left
                (fun w call => snd (loadGLTFObject (snd call) (fst call) w))
                calls w in
    (forall k model, ModelCache w' !! k = Some model ->
       name model = k /\ is_Some (material w' !! mesh model))
    /\ (forall k1 k2 m1 m2,
          ModelCache w' !! k1 = Some m1 -> ModelCache w' !! k2 = Some m2 ->
          mesh m1 = mesh m2 -> k1 = k2)).
  { induction calls as [| [key asset] calls IH]; intros w Hentries Hinj;
      cbn [fold_left fst snd].
    - split; [| exact Hinj]. intros k model Hk.
      destruct (Hentries k model Hk) as (? & _ & ?). auto.
    - apply IH.
      + now apply cache_entries_step.
      + apply cache_meshes_step; [| exact Hinj].
        intros k model Hk. now destruct (Hentries k model Hk) as (_ & ? & _). }
  apply Hgen; cbn.
  - intros k model Hk. now rewrite lookup_empty in Hk.
  - intros k1 k2 m1 m2 Hk. now rewrite lookup_empty in Hk.
Qed.

(** X8.  After any sequence of calls from the start of the program, an
    identifier is in the cache exactly when the log has a fetch of its
    asset that gave a mesh. *)
Theorem cached_iff_mesh_fetched (context2d : bool)
    (calls : list (string * Asset)) (key : string) :
  let w := get_or_load_all calls (initial_world context2d) in
  is_Some (ModelCache w !! key) <-> In (model_url key, FirstChildMesh) (fetched w).
Proof.
  cbv zeta. split.
  - unfold get_or_load_all.
    assert (Hgen : forall w,
      (forall k, is_Some (ModelCache w !! k) ->
                 In (model_url k, FirstChildMesh) (fetched w)) ->
      forall k,
        is_Some (ModelCache
                   (fold_left
                      (fun w call =>
                         snd (loadGLTFObject (snd call) (fst call) w))
                      calls w) !! k) ->
        In (model_url k, FirstChildMesh)
           (fetched
              (fold_left
                 (fun w call => snd (loadGLTFObject (snd call) (fst call) w))
                 calls w))).
    { induction calls as [| [k' asset] calls IH]; intros w Hw;
        cbn [fold_left fst snd]; [exact Hw |].
      apply IH. intros k.
      rewrite loadGLTFObject_fetched, loadGLTFObject_cache.
      destruct (ModelCache w !! k') as [cached |] eqn:Hcache.
      - rewrite app_nil_r. apply Hw.
      - intros Hk. apply in_app_iff.
        destruct asset; try (left; now apply Hw).
        destruct (decide (k' = k)) as [-> | Hne].
        + right. now left.
        + rewrite lookup_insert_ne in Hk by assumption. left. now apply Hw. }
    apply Hgen. cbn. intros k Hk. rewrite lookup_empty in Hk.
    now destruct Hk.
  - apply (fetched_once_all calls (initial_world context2d)).
    apply fetched_once_initial.
Qed.

Lemma cache_entries_well_formed_witness :
  ModelCache (get_or_load_all [("cup", FirstChildMesh); ("cushion", FirstChildMesh)]
                              (initial_world true)) !! "cup"
  = Some {| name := "cup"; mesh := 0 |}
  /\ ModelCache (get_or_load_all
                   [("cup", FirstChildMesh); ("cushion", FirstChildMesh)]
                   (initial_world true)) !! "cushion"
     = Some {| name := "cushion"; mesh := 1 |}
  /\ (name {| name := "cup"; mesh := 0 |} = "cup"
      /\ is_Some (material
                    (get_or_load_all
                       [("cup", FirstChildMesh); ("cushion", FirstChildMesh)]
                       (initial_world true))
                  !! mesh {| name := "cup"; mesh := 0 |}))
  /\ (mesh {| name := "cup"; mesh := 0 |}
      = mesh {| name := "cushion"; mesh := 1 |} -> "cup" = "cushion").
Proof.
  destruct (cache_entries_well_formed true
              [("cup", FirstChildMesh); ("cushion", FirstChildMesh)])
    as [Hentries Hinj].
  assert (Hcup :
    ModelCache (get_or_load_all
                  [("cup", FirstChildMesh); ("cushion", FirstChildMesh)]
                  (initial_world true)) !! "cup"
    = Some {| name := "cup"; mesh := 0 |}) by reflexivity.
  assert (Hcushion :
    ModelCache (get_or_load_all
                  [("cup", FirstChildMesh); ("cushion", FirstChildMesh)]
                  (initial_world true)) !! "cushion"
    = Some {| name := "cushion"; mesh := 1 |}) by reflexivity.
  split; [exact Hcup |]. split; [exact Hcushion |].
  split; [exact (Hentries _ _ Hcup) |].
  exact (Hinj _ _ _ _ Hcup Hcushion).
Defined.

Lemma cached_iff_mesh_fetched_witness :
  is_Some (ModelCache
             (get_or_load_all [("cup", Rejected); ("cup", FirstChildMesh)]
                              (initial_world true)) !! "cup")
  <-> In (model_url "cup", FirstChildMesh)
         (fetched (get_or_load_all [("cup", Rejected); ("cup", FirstChildMesh)]
                                   (initial_world true))).
Proof.
  exact (cached_iff_mesh_fetched true
           [("cup", Rejected); ("cup", FirstChildMesh)] "cup").
Defined.

(** ** The listeners, whatever the identifier and the browser *)

(** [applyTexture] touches the materials and the counter, nothing else. *)
Lemma applyTexture_frame (model : ModelWithMeta) (image : option ImageBitmap)
    (c : string) (w : World) :
  let w' := snd (applyTexture model image c w) in
  fetched w' = fetched w
  /\ ModelCache w' = ModelCache w
  /\ scene w' = scene w
  /\ activeModel w' = activeModel w
  /\ activeImage w' = activeImage w
  /\ color w' = color w.
Proof.
  rewrite applyTexture_cases.
  destruct (context2d_available w); [| cbn; auto 10].
  destruct (lookup_routine (name model)); cbn; auto 10.
Qed.

(** [setActiveModel] in full. *)
Lemma setActiveModel_cases (asset : Asset) (key : string) (w : World) :
  setActiveModel asset key w
  = match loadGLTFObject asset key w with
    | (Normal (Some newModel), w1) =>
        match applyTexture newModel (activeImage w1) (color w1)
                           (swapped_in newModel w1) with
        | (Normal _, w2) =>
            (Normal tt,
             set_scene (without (MeshObject (mesh newModel)) (scene w2)
                        ++ [MeshObject (mesh newModel)]) w2)
        | (Throw e, w2) => (Throw e, w2)
        end
    | (Normal None, w1) => (Normal tt, w1)
    | (Throw e, w1) => (Throw e, w1)
    end.
Proof.
  unfold setActiveModel, bind at 1.
  destruct (loadGLTFObject asset key w) as [[[newModel |] | e] w1];
    try reflexivity.
  unfold swapped_in, bind, gets, modify, scene_remove, scene_add, ret.
  destruct (activeModel w1) as [model |]; cbn;
    match goal with
    | |- context [applyTexture ?m ?i ?c ?w] =>
        destruct (applyTexture m i c w) as [[[] | ?] ?]
    end; reflexivity.
Qed.

(** The listener of the image input in full. *)
Lemma on_image_upload_cases (imageFile : option File) (w : World) :
  on_image_upload imageFile w
  = match imageFile, activeModel w with
    | Some (Decodable bitmap), Some model =>
        applyTexture model (Some bitmap) (color w)
                     (set_activeImage (Some bitmap) w)
    | _, _ => (Normal tt, w)
    end.
Proof.
  unfold on_image_upload, bind at 1, gets at 1.
  destruct imageFile as [[bitmap |] |];
    destruct (activeModel w) as [model |] eqn:Hmodel; try reflexivity.
  unfold try_catch, bind, gets, modify, ret, createImageBitmap. cbn.
  rewrite Hmodel. cbn.
  match goal with
  | |- context [applyTexture ?m ?i ?c ?w'] =>
      destruct (applyTexture m i c w') as [[[] | e] w'']
  end; reflexivity.
Qed.

(** The listener of the color input in full. *)
Lemma on_color_input_cases (value : string) (w : World) :
  on_color_input value w
  = match activeModel w with
    | Some model =>
        applyTexture model (activeImage w) value (set_color value w)
    | None => (Normal tt, set_color value w)
    end.
Proof.
  unfold on_color_input, bind, gets, modify, ret. cbn.
  destruct (activeModel w) as [model |]; [| reflexivity]. cbn.
  match goal with
  | |- context [applyTexture ?m ?i ?c ?w'] =>
      destruct (applyTexture m i c w') as [[[] | e] w'']
  end; reflexivity.
Qed.

(** With a 2D context at hand, [applyTexture] throws for the names whose
    inherited function throws, and for no other. *)
Lemma applyTexture_throws (model : ModelWithMeta) (image : option ImageBitmap)
    (c : string) (w : World) (e : Error) :
  context2d_available w = true ->
  fst (applyTexture model image c w) = Throw e
  <-> lookup_routine (name model) = InheritedThrowing /\ e = TypeError.
Proof.
  intros Hctx. rewrite applyTexture_cases, Hctx.
  destruct (lookup_routine (name model)); cbn [fst].
  - split; [discriminate | intros [[=] _]].
  - split; [discriminate | intros [[=] _]].
  - split; [intros [= <-]; auto | intros [_ ->]; reflexivity].
  - split; [discriminate | intros [[=] _]].
Qed.

Lemma swapped_in_context2d (newModel : ModelWithMeta) (w : World) :
  context2d_available (swapped_in newModel w) = context2d_available w.
Proof. unfold swapped_in. now destruct (activeModel w). Qed.

(** [loadGLTFObject] throws in one case only. *)
Lemma loadGLTFObject_throws (asset : Asset) (key : string) (w w1 : World)
    (e : Error) :
  loadGLTFObject asset key w = (Throw e, w1)
  <-> asset = Rejected /\ ModelCache w !! key = None /\ e = LoadError
      /\ w1 = set_fetched (fetched w ++ [(model_url key, Rejected)]) w.
Proof.
  destruct (ModelCache w !! key) as [cached |] eqn:Hcache.
  - rewrite (loadGLTFObject_hit _ _ _ _ Hcache).
    split; [discriminate | intros (_ & [=] & _)].
  - rewrite (loadGLTFObject_miss _ _ _ Hcache). destruct asset; cbn.
    + split; [intros [= <- <-]; auto | intros (_ & _ & -> & ->); reflexivity].
    + split; [discriminate | intros ([=] & _)].
    + split; [discriminate | intros ([=] & _)].
Qed.

(** With a 2D context at hand, a listener throws the rejection of a
    load, or the [TypeError] of [applyTexture]. *)
Lemma handle_throws_cases (event : Event) (w : World) (e : Error) :
  context2d_available w = true ->
  fst (handle event w) = Throw e
  <-> (exists key,
         event = ModelSelect key Rejected
         /\ ModelCache w !! key = None /\ e = LoadError)
      \/ (exists model,
            retextured event w = Some model
            /\ lookup_routine (name model) = InheritedThrowing
            /\ e = TypeError).
Proof.
  intros Hctx. destruct event as [key asset | imageFile | value];
    cbn [handle retextured].
  - rewrite setActiveModel_cases.
    pose proof (loadGLTFObject_frame asset key w) as (Hctx1 & _).
    destruct (loadGLTFObject asset key w) as [[[newModel |] | e0] w1] eqn:Hload;
      cbn [fst snd] in *.
    + pose proof (applyTexture_throws newModel (activeImage w1) (color w1)
                    (swapped_in newModel w1) e) as Hthrows.
      rewrite swapped_in_context2d, Hctx1 in Hthrows.
      specialize (Hthrows Hctx).
      assert (Hnot : ~ exists key0,
                       ModelSelect key asset = ModelSelect key0 Rejected
                       /\ ModelCache w !! key0 = None /\ e = LoadError).
      { intros (key0 & [= <- ->] & Hk & _).
        rewrite (loadGLTFObject_miss _ _ _ Hk) in Hload. discriminate Hload. }
      destruct (applyTexture newModel _ _ _) as [[[] | e'] w2];
        cbn [fst] in *.
      * split; [discriminate |].
        intros [H | (model & [= <-] & Hl & He)]; [contradiction |].
        now apply Hthrows.
      * split.
        -- intros Heq. right. exists newModel. split; [reflexivity |].
           now apply Hthrows.
        -- intros [H | (model & [= <-] & Hl & He)]; [contradiction |].
           now apply Hthrows.
    + split; [discriminate |].
      intros [(key0 & [= <- ->] & Hk & _) | (model & [=] & _)].
      rewrite (loadGLTFObject_miss _ _ _ Hk) in Hload. discriminate Hload.
    + apply loadGLTFObject_throws in Hload as (-> & Hk & -> & _). split.
      * intros [= <-]. left. eauto.
      * intros [(key0 & _ & _ & ->) | (model & [=] & _)]. reflexivity.
  - rewrite on_image_upload_cases.
    destruct imageFile as [[bitmap |] |];
      destruct (activeModel w) as [model |] eqn:Hmodel; cbn [fst];
      try (split; [discriminate |];
           intros [(key0 & [=] & _) | (model' & [=] & _)]).
    rewrite applyTexture_throws by exact Hctx. split.
    + intros [Hl He]. right. eauto.
    + intros [(key0 & [=] & _) | (model' & [= <-] & Hl & He)]. auto.
  - rewrite on_color_input_cases.
    destruct (activeModel w) as [model |] eqn:Hmodel; cbn [fst];
      try (split; [discriminate |];
           intros [(key0 & [=] & _) | (model' & [=] & _)]).
    rewrite applyTexture_throws by exact Hctx. split.
    + intros [Hl He]. right. eauto.
    + intros [(key0 & [=] & _) | (model' & [= <-] & Hl & He)]. auto.
Qed.

(** In a coherent world the models in play have routines of their own. *)
Lemma retextured_own (event : Event) (w : World) (model : ModelWithMeta) :
  coherent w ->
  supported_event event ->
  retextured event w = Some model ->
  exists drawTexture, lookup_routine (name model) = Own drawTexture.
Proof.
  intros Hw Hevent Hre.
  assert (Hactive : activeModel w = Some model ->
                    exists d, lookup_routine (name model) = Own d).
  { intros Hmodel.
    destruct (active_textured w Hw model Hmodel) as (id & canvas & _ & _ & Hc).
    apply composite_routine in Hc as (d & Hd & _).
    exists d. now apply lookup_routine_own. }
  destruct event as [key asset | [[bitmap |] |] | value];
    cbn [retextured] in Hre; try discriminate Hre; auto.
  pose proof (coherent_loadGLTFObject asset key w Hw) as Hw1.
  destruct (loadGLTFObject asset key w) as [[[newModel |] | e0] w1] eqn:Hload;
    cbn [fst snd] in *; try discriminate Hre.
  injection Hre as ->.
  pose proof (loadGLTFObject_returns _ _ _ _ _ Hload) as Hcached.
  rewrite (cache_names w1 Hw1 _ _ Hcached).
  now apply lookup_supported.
Qed.

(** X9.  With a 2D context at hand, a listener throws in two cases only.
    A model is selected that is not in the cache and the loader rejects
    its asset: what is thrown is the rejection.  Or the listener
    re-textures a model named after a property of [Object.prototype]
    whose function throws when called as a routine: what is thrown is
    the [TypeError] of that call. *)
Theorem listener_throws_cases (event : Event) (w : World) (e : Error) :
  context2d_available w = true ->
  fst (handle event w) = Throw e
  <-> (exists key,
         event = ModelSelect key Rejected
         /\ ModelCache w !! key = None /\ e = LoadError)
      \/ (exists model,
            retextured event w = Some model
            /\ lookup_routine (name model) = InheritedThrowing
            /\ e = TypeError).
Proof. exact (handle_throws_cases event w e). Qed.

Lemma listener_throws_cases_witness :
  context2d_available world_with_cushion = true
  /\ fst (handle (ModelSelect "cup" Rejected) world_with_cushion)
     = Throw LoadError
  /\ fst (handle (ModelSelect "valueOf" FirstChildMesh) world_with_cushion)
     = Throw TypeError.
Proof.
  split; [reflexivity |]. split.
  - apply (listener_throws_cases (ModelSelect "cup" Rejected)
             world_with_cushion LoadError eq_refl).
    left. exists "cup". split; [reflexivity |]. split; reflexivity.
  - apply (listener_throws_cases (ModelSelect "valueOf" FirstChildMesh)
             world_with_cushion TypeError eq_refl).
    right. exists {| name := "valueOf"; mesh := 4 |}.
    split; [reflexivity |]. split; reflexivity.
Defined.

(** X10.  With a 2D context at hand, whatever the events, the errors
    that reach the global handler are rejections of the loader and
    [TypeError]s of [applyTexture].  When the identifiers are [cup] or
    [cushion] and the world is coherent, they are all rejections of the
    loader, and there is at most one for each model-select whose load is
    rejected. *)
Theorem unhandled_errors_kinds (events : list Event) (w : World) :
  context2d_available w = true ->
  Forall (fun e => e = LoadError \/ e = TypeError) (fst (dispatch events w))
  /\ (coherent w ->
      Forall supported_event events ->
      Forall (fun e => e = LoadError) (fst (dispatch events w))
      /\ length (fst (dispatch events w))
         <= length (List.filter rejected_select events)).
Proof.
  revert w. induction events as [| event events IH]; intros w Hctx.
  - cbn. split; [constructor |]. intros _ _. split; [constructor | lia].
  - pose proof (handle_context2d event w) as Hctx1. rewrite Hctx in Hctx1.
    pose proof (handle_throws_cases event w) as Hthrow.
    pose proof (coherent_handle event w Hctx) as Hcoh.
    pose proof (retextured_own event w) as Hown.
    cbn [dispatch List.filter].
    destruct (handle event w) as [[[] | e] w1]; cbn [fst snd] in *.
    + destruct (IH w1 Hctx1) as [Hall Hsup]. split; [exact Hall |].
      intros Hw Hevents. inversion Hevents as [| ? ? Hevent Hrest]; subst.
      destruct (Hsup (Hcoh Hevent Hw) Hrest) as [Hload Hlen].
      split; [exact Hload |].
      destruct (rejected_select event); cbn [length]; lia.
    + destruct (IH w1 Hctx1) as [Hall Hsup].
      destruct (proj1 (Hthrow e Hctx) eq_refl)
        as [(key & -> & _ & ->) | (model & Hre & Hl & ->)].
      * destruct (dispatch events w1) as [unhandled w2]. cbn [fst] in *.
        split; [constructor; auto |].
        intros Hw Hevents. inversion Hevents as [| ? ? Hevent Hrest]; subst.
        destruct (Hsup (Hcoh Hevent Hw) Hrest) as [Hload Hlen].
        cbn [rejected_select length]. split; [now constructor | lia].
      * destruct (dispatch events w1) as [unhandled w2]. cbn [fst] in *.
        split; [constructor; auto |].
        intros Hw Hevents. inversion Hevents as [| ? ? Hevent Hrest]; subst.
        destruct (Hown model Hw Hevent Hre) as [d Hd]. congruence.
Qed.

Lemma unhandled_errors_kinds_witness :
  context2d_available (initial_world true) = true
  /\ coherent (initial_world true)
  /\ Forall supported_event sample_events
  /\ Forall (fun e => e = LoadError \/ e = TypeError)
            (fst (dispatch sample_events (initial_world true)))
  /\ Forall (fun e => e = LoadError)
            (fst (dispatch sample_events (initial_world true)))
  /\ length (fst (dispatch sample_events (initial_world true)))
     <= length (List.filter rejected_select sample_events).
Proof.
  assert (Hevents : Forall supported_event sample_events).
  { unfold sample_events.
    repeat (constructor; [first [exact I | now left | now right] |]).
    constructor. }
  destruct (unhandled_errors_kinds sample_events
              (initial_world true) eq_refl) as [Hall Hsup].
  destruct (Hsup (coherent_initial true) Hevents) as [Hload Hlen].
  split; [reflexivity |]. split; [apply coherent_initial |].
  split; [exact Hevents |]. split; [exact Hall |].
  split; [exact Hload | exact Hlen].
Defined.

(** [loadGLTFObject] does not look at the color. *)
Lemma loadGLTFObject_set_color (asset : Asset) (key value : string)
    (w w1 : World) (result : Completion (option ModelWithMeta)) :
  loadGLTFObject asset key w = (result, w1) ->
  loadGLTFObject asset key (set_color value w) = (result, set_color value w1).
Proof.
  destruct (ModelCache w !! key) as [cached |] eqn:Hcache.
  - rewrite (loadGLTFObject_hit _ _ _ _ Hcache). intros [= <- <-].
    now apply loadGLTFObject_hit.
  - rewrite (loadGLTFObject_miss _ _ _ Hcache).
    rewrite (loadGLTFObject_miss asset key (set_color value w)) by exact Hcache.
    destruct asset; cbn; intros [= <- <-]; reflexivity.
Qed.

(** X11.  A color chosen while no model is active is kept, all else
    staying as it was, and the next model-select that gets a model
    binds the texture composited with that color. *)
Theorem color_without_model_is_kept (value : string) (asset : Asset)
    (key : string) (newModel : ModelWithMeta) (canvas : Context2D)
    (w w1 : World) :
  activeModel w = None ->
  context2d_available w = true ->
  loadGLTFObject asset key w = (Normal (Some newModel), w1) ->
  composite (name newModel) value (activeImage w) = Some canvas ->
  handle (ColorInput value) w = (Normal tt, set_color value w)
  /\ exists id,
       material (snd (handle (ModelSelect key asset)
                             (snd (handle (ColorInput value) w))))
       !! mesh newModel = Some (CanvasMaterial id canvas).
Proof.
  intros Hnone Hctx Hload Hcomp. cbn [handle].
  rewrite (on_color_input_no_model _ _ Hnone). split; [reflexivity |].
  cbn [snd].
  pose proof (loadGLTFObject_set_color _ _ value _ _ _ Hload) as Hload'.
  pose proof (loadGLTFObject_frame asset key w) as (Hctx1 & _ & _ & Himage & _).
  rewrite Hload in Hctx1, Himage. cbn [snd] in Hctx1, Himage.
  rewrite Hctx in Hctx1. rewrite <- Himage in Hcomp.
  rewrite (setActiveModel_loaded _ _ _ _ _ canvas Hload');
    [| exact Hctx1 | exact Hcomp].
  cbn. exists (allocated w1). apply lookup_insert_eq.
Qed.

Lemma color_without_model_is_kept_witness :
  activeModel (initial_world true) = None
  /\ context2d_available (initial_world true) = true
  /\ loadGLTFObject FirstChildMesh "cup" (initial_world true)
     = (Normal (Some {| name := "cup"; mesh := 0 |}), world_with_cup)
  /\ composite "cup" "#112233" None = Some (cup new_canvas "#112233" None)
  /\ handle (ColorInput "#112233") (initial_world true)
     = (Normal tt, set_color "#112233" (initial_world true))
  /\ exists id,
       material (snd (handle (ModelSelect "cup" FirstChildMesh)
                        (snd (handle (ColorInput "#112233")
                                     (initial_world true)))))
       !! 0 = Some (CanvasMaterial id (cup new_canvas "#112233" None)).
Proof.
  split; [reflexivity |]. split; [reflexivity |].
  split; [reflexivity |]. split; [reflexivity |].
  exact (color_without_model_is_kept "#112233" FirstChildMesh "cup"
           {| name := "cup"; mesh := 0 |} (cup new_canvas "#112233" None)
           (initial_world true) world_with_cup
           eq_refl eq_refl eq_refl eq_refl).
Defined.

(** X12.  Each of the three variables changes by its own event only:
    the image by the upload of a decodable file while a model is active,
    the color by the color input, the active model by a model-select,
    which makes it the entry the cache has for the identifier.  This
    holds whatever the identifiers and with or without a 2D context. *)
Theorem variables_change_by_their_event (event : Event) (w : World) :
  let w' := snd (handle event w) in
  (activeImage w' <> activeImage w ->
   exists bitmap,
     event = ImageUpload (Some (Decodable bitmap))
     /\ is_Some (activeModel w) /\ activeImage w' = Some bitmap)
  /\ (color w' <> color w ->
      exists value, event = ColorInput value /\ color w' = value)
  /\ (activeModel w' <> activeModel w ->
      exists key asset,
        event = ModelSelect key asset
        /\ is_Some (activeModel w')
        /\ activeModel w' = ModelCache w' !! key).
Proof.
  cbv zeta. destruct event as [key asset | imageFile | value]; cbn [handle].
  - rewrite setActiveModel_cases.
    pose proof (loadGLTFObject_frame asset key w)
      as (_ & _ & Hmodel & Himage & Hcolor).
    destruct (loadGLTFObject asset key w) as [[[newModel |] | e0] w1] eqn:Hload;
      cbn [snd] in *.
    + pose proof (applyTexture_frame newModel (activeImage w1) (color w1)
                    (swapped_in newModel w1))
        as (_ & Hc2 & _ & Hm2 & Hi2 & Hcol2).
      pose proof (loadGLTFObject_returns _ _ _ _ _ Hload) as Hcached.
      assert (Hsw : activeModel (swapped_in newModel w1) = Some newModel
                    /\ activeImage (swapped_in newModel w1) = activeImage w1
                    /\ color (swapped_in newModel w1) = color w1
                    /\ ModelCache (swapped_in newModel w1) = ModelCache w1).
      { unfold swapped_in. destruct (activeModel w1); cbn; auto. }
      destruct Hsw as (Hs1 & Hs2 & Hs3 & Hs4).
      destruct (applyTexture newModel _ _ _) as [[[] | e'] w2];
        cbn [snd] in *; cbn;
        (split; [intros H; congruence |]);
        (split; [intros H; congruence |]);
        intros _; exists key, asset; rewrite Hm2, Hs1, Hc2, Hs4, Hcached;
        eauto.
    + repeat split; intros H; congruence.
    + repeat split; intros H; congruence.
  - rewrite on_image_upload_cases.
    destruct imageFile as [[bitmap |] |];
      destruct (activeModel w) as [model |] eqn:Hmodel; cbn [snd];
      try (repeat split; intros H; now destruct H).
    pose proof (applyTexture_frame model (Some bitmap) (color w)
                  (set_activeImage (Some bitmap) w))
      as (_ & _ & _ & Hm2 & Hi2 & Hcol2).
    cbn in Hm2, Hi2, Hcol2.
    split; [intros _; exists bitmap; rewrite Hi2; eauto |].
    split; intros H; congruence.
  - rewrite on_color_input_cases.
    destruct (activeModel w) as [model |] eqn:Hmodel; cbn [snd].
    + pose proof (applyTexture_frame model (activeImage w) value
                    (set_color value w))
        as (_ & _ & _ & Hm2 & Hi2 & Hcol2).
      cbn in Hm2, Hi2, Hcol2.
      split; [intros H; congruence |].
      split; [intros _; exists value; rewrite Hcol2; auto |].
      intros H; congruence.
    + cbn. split; [intros H; congruence |].
      split; [intros _; eauto | intros H; congruence].
Qed.

Lemma variables_change_by_their_event_witness :
  (activeImage (snd (handle (ImageUpload (Some (Decodable square_image)))
                            world_with_cushion))
   <> activeImage world_with_cushion ->
   exists bitmap,
     ImageUpload (Some (Decodable square_image))
     = ImageUpload (Some (Decodable bitmap))
     /\ is_Some (activeModel world_with_cushion)
     /\ activeImage (snd (handle (ImageUpload (Some (Decodable square_image)))
                                 world_with_cushion))
        = Some bitmap)
  /\ activeImage (snd (handle (ImageUpload (Some (Decodable square_image)))
                              world_with_cushion))
     <> activeImage world_with_cushion.
Proof.
  split.
  - exact (proj1 (variables_change_by_their_event
                    (ImageUpload (Some (Decodable square_image)))
                    world_with_cushion)).
  - vm_compute. discriminate.
Defined.

(** X13.  An upload with no file, or with a file that does not decode,
    changes nothing and throws nothing, with or without a 2D context. *)
Theorem failed_upload_changes_nothing (w : World) :
  handle (ImageUpload None) w = (Normal tt, w)
  /\ handle (ImageUpload (Some Undecodable)) w = (Normal tt, w).
Proof.
  cbn [handle]. rewrite !on_image_upload_cases.
  split; [reflexivity | now destruct (activeModel w)].
Qed.

(** What a listener does to the scene, the active model, the log and
    the cache. *)
Lemma handle_effects (event : Event) (w : World) :
  let w' := snd (handle event w) in
  match event with
  | ModelSelect key asset =>
      let w1 := snd (loadGLTFObject asset key w) in
      fetched w' = fetched w1 /\ ModelCache w' = ModelCache w1
      /\ match fst (loadGLTFObject asset key w) with
         | Normal (Some newModel) =>
             activeModel w' = Some newModel
             /\ (scene w'
                 = without (MeshObject (mesh newModel))
                     (scene (swapped_in newModel w1))
                   ++ [MeshObject (mesh newModel)]
                 \/ scene w' = scene (swapped_in newModel w1))
         | _ => activeModel w' = activeModel w /\ scene w' = scene w
         end
  | _ =>
      fetched w' = fetched w /\ ModelCache w' = ModelCache w
      /\ activeModel w' = activeModel w /\ scene w' = scene w
  end.
Proof.
  cbv zeta. destruct event as [key asset | imageFile | value]; cbn [handle].
  - rewrite setActiveModel_cases.
    pose proof (loadGLTFObject_frame asset key w) as (_ & Hscene & Hmodel & _).
    destruct (loadGLTFObject asset key w) as [[[newModel |] | e0] w1];
      cbn [fst snd] in *; auto.
    pose proof (applyTexture_frame newModel (activeImage w1) (color w1)
                  (swapped_in newModel w1)) as (Hf & Hc & Hs & Hm & _).
    assert (Hsw : fetched (swapped_in newModel w1) = fetched w1
                  /\ ModelCache (swapped_in newModel w1) = ModelCache w1
                  /\ activeModel (swapped_in newModel w1) = Some newModel).
    { unfold swapped_in. destruct (activeModel w1); cbn; auto. }
    destruct Hsw as (Hsf & Hsc & Hsm).
    destruct (applyTexture newModel _ _ _) as [[[] | e'] w2];
      cbn [snd] in *; cbn; rewrite ?Hf, ?Hc, ?Hs, ?Hm; auto 10.
  - rewrite on_image_upload_cases.
    destruct imageFile as [[bitmap |] |];
      destruct (activeModel w) as [model |] eqn:Hmodel; cbn [snd]; auto.
    pose proof (applyTexture_frame model (Some bitmap) (color w)
                  (set_activeImage (Some bitmap) w)) as (Hf & Hc & Hs & Hm & _).
    cbn in Hf, Hc, Hs, Hm. rewrite Hf, Hc, Hs, Hm. auto.
  - rewrite on_color_input_cases.
    destruct (activeModel w) as [model |] eqn:Hmodel; cbn [snd]; auto.
    pose proof (applyTexture_frame model (activeImage w) value
                  (set_color value w)) as (Hf & Hc & Hs & Hm & _).
    cbn in Hf, Hc, Hs, Hm. rewrite Hf, Hc, Hs, Hm. auto.
Qed.

(** X14.  Once a model is active, a model is active after every event:
    no listener empties [activeModel]. *)
Theorem active_model_stays (events : list Event) (w : World) :
  is_Some (activeModel w) ->
  is_Some (activeModel (snd (dispatch events w))).
Proof.
  revert w. induction events as [| event events IH]; intros w Hsome;
    [exact Hsome |].
  assert (Hstep : is_Some (activeModel (snd (handle event w)))).
  { pose proof (handle_effects event w) as H. cbv zeta in H.
    destruct event as [key asset | imageFile | value].
    - destruct H as (_ & _ & H).
      destruct (fst (loadGLTFObject asset key w)) as [[newModel |] | e0].
      + destruct H as [-> _]. eauto.
      + destruct H as [-> _]. exact Hsome.
      + destruct H as [-> _]. exact Hsome.
    - destruct H as (_ & _ & -> & _). exact Hsome.
    - destruct H as (_ & _ & -> & _). exact Hsome. }
  cbn [dispatch]. destruct (handle event w) as [[[] | e] w1]; cbn [snd] in *.
  - now apply IH.
  - specialize (IH w1 Hstep). now destruct (dispatch events w1).
Qed.

Lemma active_model_stays_witness :
  is_Some (activeModel world_with_cushion)
  /\ is_Some (activeModel (snd (dispatch sample_events world_with_cushion))).
Proof.
  assert (H : is_Some (activeModel world_with_cushion)) by (eexists; reflexivity).
  split; [exact H |].
  exact (active_model_stays sample_events world_with_cushion H).
Defined.

Lemma scene_shape_swapped (newModel : ModelWithMeta) (w : World) :
  lights_and_active_mesh w ->
  scene (swapped_in newModel w) = [AmbientLight; DirectionalLight].
Proof.
  unfold swapped_in. intros [Hscene | (model & Hmodel & Hscene)].
  - destruct (activeModel w); cbn; rewrite Hscene; reflexivity.
  - rewrite Hmodel. cbn. rewrite Hscene.
    apply (without_last (mesh model)).
Qed.




(** X16.  With a 2D context at hand, selecting an identifier that is
    neither [cup] nor [cushion] but whose asset loads swaps the model all
    the same, up to the call of the routine.  When the registry gives
    nothing for the identifier, the new model becomes the active one and
    its mesh the mesh of the scene, with the material it had; nothing is
    composited and nothing is thrown.  When the identifier is
    [constructor] or [toString], the same happens but the mesh gets a
    material with the blank canvas.  When it is one of the ten other
    names of [Object.prototype], the listener throws a [TypeError] after
    the swap: the new model is the active one and its mesh is not in the
    scene. *)
Theorem select_without_routine (asset : Asset) (key : string)
    (newModel : ModelWithMeta) (w w1 : World) :
  context2d_available w = true ->
  lights_and_active_mesh w ->
  loadGLTFObject asset key w = (Normal (Some newModel), w1) ->
  (~ supported (name newModel) ->
   ~ In (name newModel) inherited_returning ->
   ~ In (name newModel) inherited_throwing ->
   handle (ModelSelect key asset) w
   = (Normal tt,
      set_scene [AmbientLight; DirectionalLight; MeshObject (mesh newModel)]
        (set_activeModel (Some newModel) w1)))
  /\ (In (name newModel) inherited_returning ->
      handle (ModelSelect key asset) w
      = (Normal tt,
         set_scene [AmbientLight; DirectionalLight; MeshObject (mesh newModel)]
           (set_material
              (<[mesh newModel := CanvasMaterial (allocated w1) new_canvas]>
                 (material w1))
              (set_allocated (S (allocated w1))
                 (set_activeModel (Some newModel) w1)))))
  /\ (In (name newModel) inherited_throwing ->
      handle (ModelSelect key asset) w
      = (Throw TypeError,
         set_scene [AmbientLight; DirectionalLight]
           (set_activeModel (Some newModel) w1))).
Proof.
  intros Hctx Hshape Hload. cbn [handle].
  rewrite setActiveModel_cases, Hload.
  pose proof (loadGLTFObject_frame asset key w) as (Hctx1 & Hs1 & Hm1 & _).
  rewrite Hload in Hctx1, Hs1, Hm1. cbn [snd] in Hctx1, Hs1, Hm1.
  assert (Hshape1 : lights_and_active_mesh w1).
  { unfold lights_and_active_mesh. rewrite Hs1, Hm1. exact Hshape. }
  pose proof (scene_shape_swapped newModel w1 Hshape1) as Hscene.
  assert (Hsw : swapped_in newModel w1
                = set_scene [AmbientLight; DirectionalLight]
                    (set_activeModel (Some newModel) w1)).
  { rewrite <- Hscene. unfold swapped_in.
    destruct (activeModel w1); reflexivity. }
  rewrite applyTexture_cases, swapped_in_context2d, Hctx1, Hctx.
  split; [| split].
  - intros Hs Hr Ht. rewrite (lookup_missing _ Hs Hr Ht).
    rewrite Hscene, without_lights. now rewrite Hsw.
  - intros Hr. rewrite (lookup_returning _ Hr). cbn [snd scene set_material
      set_allocated].
    rewrite Hsw. reflexivity.
  - intros Ht. rewrite (lookup_throwing _ Ht). now rewrite Hsw.
Qed.

Lemma select_without_routine_witness :
  context2d_available world_with_cushion = true
  /\ lights_and_active_mesh world_with_cushion
  /\ loadGLTFObject FirstChildMesh "vase" world_with_cushion
     = (Normal (Some {| name := "vase"; mesh := 4 |}),
        snd (loadGLTFObject FirstChildMesh "vase" world_with_cushion))
  /\ (~ supported "vase"
      /\ ~ In "vase" inherited_returning /\ ~ In "vase" inherited_throwing)
  /\ handle (ModelSelect "vase" FirstChildMesh) world_with_cushion
     = (Normal tt,
        set_scene [AmbientLight; DirectionalLight; MeshObject 4]
          (set_activeModel (Some {| name := "vase"; mesh := 4 |})
             (snd (loadGLTFObject FirstChildMesh "vase" world_with_cushion))))
  /\ material (snd (handle (ModelSelect "vase" FirstChildMesh)
                           world_with_cushion)) !! 4
     = Some AssetMaterial
  /\ loadGLTFObject FirstChildMesh "valueOf" world_with_cushion
     = (Normal (Some {| name := "valueOf"; mesh := 4 |}),
        snd (loadGLTFObject FirstChildMesh "valueOf" world_with_cushion))
  /\ In "valueOf" inherited_throwing
  /\ handle (ModelSelect "valueOf" FirstChildMesh) world_with_cushion
     = (Throw TypeError,
        set_scene [AmbientLight; DirectionalLight]
          (set_activeModel (Some {| name := "valueOf"; mesh := 4 |})
             (snd (loadGLTFObject FirstChildMesh "valueOf"
                                  world_with_cushion)))).
Proof.
  assert (Hshape : lights_and_active_mesh world_with_cushion).
  { right. eexists. split; reflexivity. }
  assert (Hs : ~ supported "vase") by (intros [H | H]; discriminate H).
  assert (Hr : ~ In "vase" inherited_returning)
    by (intros H; apply existsb_eqb_In in H; discriminate H).
  assert (Ht : ~ In "vase" inherited_throwing)
    by (intros H; apply existsb_eqb_In in H; discriminate H).
  assert (Ht' : In "valueOf" inherited_throwing)
    by (now apply existsb_eqb_In).
  assert (Hload :
    loadGLTFObject FirstChildMesh "vase" world_with_cushion
    = (Normal (Some {| name := "vase"; mesh := 4 |}),
       snd (loadGLTFObject FirstChildMesh "vase" world_with_cushion)))
    by reflexivity.
  assert (Hload' :
    loadGLTFObject FirstChildMesh "valueOf" world_with_cushion
    = (Normal (Some {| name := "valueOf"; mesh := 4 |}),
       snd (loadGLTFObject FirstChildMesh "valueOf" world_with_cushion)))
    by reflexivity.
  destruct (select_without_routine FirstChildMesh "vase"
              {| name := "vase"; mesh := 4 |} world_with_cushion _
              eq_refl Hshape Hload) as (Hmissing & _ & _).
  destruct (select_without_routine FirstChildMesh "valueOf"
              {| name := "valueOf"; mesh := 4 |} world_with_cushion _
              eq_refl Hshape Hload') as (_ & _ & Hthrowing).
  pose proof (Hmissing Hs Hr Ht) as H.
  split; [reflexivity |]. split; [exact Hshape |]. split; [exact Hload |].
  split; [auto |]. split; [exact H |].
  split; [rewrite H; reflexivity |].
  split; [exact Hload' |]. split; [exact Ht' |].
  exact (Hthrowing Ht').
Defined.

(** X17.  Without a 2D context [applyTexture] throws before it binds
    anything.  A model-select that gets a model then stops half way: the
    mesh of the model that was active is out of the scene, the new model
    is the active one, and its mesh is not in the scene.  A color input
    with a model active sets the color and leaves the old texture. *)
Theorem without_context2d (asset : Asset) (key value : string)
    (newModel model : ModelWithMeta) (w w1 : World) :
  context2d_available w = false ->
  lights_and_active_mesh w ->
  (loadGLTFObject asset key w = (Normal (Some newModel), w1) ->
   handle (ModelSelect key asset) w
   = (Throw NoContextError, swapped_in newModel w1)
   /\ activeModel (swapped_in newModel w1) = Some newModel
   /\ scene (swapped_in newModel w1) = [AmbientLight; DirectionalLight]
   /\ material (swapped_in newModel w1) = material w1)
  /\ (activeModel w = Some model ->
      handle (ColorInput value) w = (Throw NoContextError, set_color value w)).
Proof.
  intros Hctx Hshape. split.
  - intros Hload. cbn [handle]. rewrite setActiveModel_cases, Hload.
    pose proof (loadGLTFObject_frame asset key w) as (Hctx1 & Hs1 & Hm1 & _).
    rewrite Hload in Hctx1, Hs1, Hm1. cbn [snd] in Hctx1, Hs1, Hm1.
    assert (Hshape1 : lights_and_active_mesh w1).
    { unfold lights_and_active_mesh. rewrite Hs1, Hm1. exact Hshape. }
    rewrite applyTexture_cases, swapped_in_context2d, Hctx1, Hctx.
    split; [reflexivity |].
    split; [unfold swapped_in; now destruct (activeModel w1) |].
    split; [now apply scene_shape_swapped |].
    unfold swapped_in. now destruct (activeModel w1).
  - intros Hmodel. cbn [handle].
    rewrite on_color_input_cases, Hmodel, applyTexture_cases. cbn.
    now rewrite Hctx.
Qed.

Lemma without_context2d_witness :
  context2d_available (initial_world false) = false
  /\ lights_and_active_mesh (initial_world false)
  /\ loadGLTFObject FirstChildMesh "cup" (initial_world false)
     = (Normal (Some {| name := "cup"; mesh := 0 |}),
        snd (loadGLTFObject FirstChildMesh "cup" (initial_world false)))
  /\ handle (ModelSelect "cup" FirstChildMesh) (initial_world false)
     = (Throw NoContextError,
        swapped_in {| name := "cup"; mesh := 0 |}
          (snd (loadGLTFObject FirstChildMesh "cup" (initial_world false))))
  /\ activeModel
       (snd (handle (ModelSelect "cup" FirstChildMesh) (initial_world false)))
     = Some {| name := "cup"; mesh := 0 |}
  /\ handle (ColorInput "#112233")
            (snd (handle (ModelSelect "cup" FirstChildMesh)
                         (initial_world false)))
     = (Throw NoContextError,
        set_color "#112233"
          (snd (handle (ModelSelect "cup" FirstChildMesh)
                       (initial_world false)))).
Proof.
  assert (Hshape : lights_and_active_mesh (initial_world false))
    by (left; reflexivity).
  assert (Hshape' :
    lights_and_active_mesh
      (snd (handle (ModelSelect "cup" FirstChildMesh) (initial_world false))))
    by (left; reflexivity).
  split; [reflexivity |]. split; [exact Hshape |]. split; [reflexivity |].
  split.
  - exact (proj1 (proj1 (without_context2d FirstChildMesh "cup" "#112233"
                           {| name := "cup"; mesh := 0 |}
                           {| name := "cup"; mesh := 0 |}
                           (initial_world false) _ eq_refl Hshape)
                        eq_refl)).
  - split; [reflexivity |].
    exact (proj2 (without_context2d FirstChildMesh "cup" "#112233"
                    {| name := "cup"; mesh := 0 |}
                    {| name := "cup"; mesh := 0 |}
                    (snd (handle (ModelSelect "cup" FirstChildMesh)
                                 (initial_world false)))
                    (initial_world false) eq_refl Hshape')
                 eq_refl).
Defined.

Lemma fetched_once_ext (w w' : World) :
  fetched w' = fetched w -> ModelCache w' = ModelCache w ->
  fetched_once w -> fetched_once w'.
Proof. unfold fetched_once. intros -> ->. auto. Qed.

Lemma fetched_once_handle (event : Event) (w : World) :
  fetched_once w -> fetched_once (snd (handle event w)).
Proof.
  intros Hw. pose proof (handle_effects event w) as H. cbv zeta in H.
  destruct event as [key asset | imageFile | value].
  - destruct H as (Hf & Hc & _).
    apply (fetched_once_ext (snd (loadGLTFObject asset key w))); auto.
    now apply fetched_once_step.
  - destruct H as (Hf & Hc & _). now apply (fetched_once_ext w).
  - destruct H as (Hf & Hc & _). now apply (fetched_once_ext w).
Qed.

Lemma fetched_once_dispatch (events : list Event) (w : World) :
  fetched_once w -> fetched_once (snd (dispatch events w)).
Proof.
  revert w. induction events as [| event events IH]; intros w Hw; [exact Hw |].
  pose proof (fetched_once_handle event w Hw) as Hstep.
  cbn [dispatch]. destruct (handle event w) as [[[] | e] w1]; cbn [snd] in *.
  - now apply IH.
  - specialize (IH w1 Hstep). now destruct (dispatch events w1).
Qed.

(** X18.  In a session in which the listeners run one after the other
    (no event arrives while a load is pending), whatever the events and
    the browser, the asset of an identifier is not fetched again once a
    fetch of it has given a mesh, and the assets fetched are those of the
    cached identifiers. *)(** X18.  In a session, whatever the events and the browser, the asset
    of an identifier is not fetched again once a fetch of it has given a
    mesh, and the assets fetched are those of the cached identifiers. *)
Theorem session_fetches_until_first_mesh (context2d : bool)
    (checked : option (string * Asset)) (events : list Event) :
  let w := snd (session context2d checked events) in
  (forall before key after,
     fetched w = before ++ (model_url key, FirstChildMesh) :: after ->
     forall asset, ~ In (model_url key, asset) after)
  /\ (forall key, In (model_url key, FirstChildMesh) (fetched w) ->
                  is_Some (ModelCache w !! key)).
Proof.
  cbv zeta.
  assert (H : fetched_once (snd (session context2d checked events))).
  { unfold session, setupImagePreviewControls.
    pose proof (fetched_once_initial context2d) as H0.
    destruct checked as [[value asset] |].
    - pose proof (fetched_once_handle (ModelSelect value asset) _ H0) as H1.
      cbn [handle] in H1.
      destruct (setActiveModel asset value (initial_world context2d))
        as [[[] | e] w]; cbn [snd] in *;
        [now apply fetched_once_dispatch | exact H1].
    - now apply fetched_once_dispatch. }
  destruct H as [Hcached Honce]. split; assumption.
Qed.

Lemma session_fetches_until_first_mesh_witness :
  fetched (snd (session true (Some ("cup", FirstChildMesh)) sample_events))
  = [("/models/cup.glb", FirstChildMesh)]
    ++ (model_url "cushion", Rejected)
    :: [(model_url "cushion", FirstChildMesh)]
  /\ (forall asset : Asset, ~ In (model_url "cup", asset)
                                 [(model_url "cushion", Rejected);
                                  (model_url "cushion", FirstChildMesh)]).
Proof.
  split; [reflexivity |].
  destruct (session_fetches_until_first_mesh true
              (Some ("cup", FirstChildMesh)) sample_events) as [Honce _].
  apply (Honce [] "cup"). reflexivity.
Defined.

(** ** The page *)

Lemma handle_model_select_keeps (key : string) (asset : Asset) (w : World) :
  activeImage (snd (handle (ModelSelect key asset) w)) = activeImage w
  /\ color (snd (handle (ModelSelect key asset) w)) = color w.
Proof.
  cbn [handle]. rewrite setActiveModel_cases.
  pose proof (loadGLTFObject_frame asset key w) as (_ & _ & _ & Hi & Hc).
  destruct (loadGLTFObject asset key w) as [[[newModel |] | e0] w1];
    cbn [snd] in *; auto.
  pose proof (applyTexture_frame newModel (activeImage w1) (color w1)
                (swapped_in newModel w1)) as (_ & _ & _ & _ & Hi2 & Hc2).
  assert (Hsw : activeImage (swapped_in newModel w1) = activeImage w1
                /\ color (swapped_in newModel w1) = color w1).
  { unfold swapped_in. destruct (activeModel w1); cbn; auto. }
  destruct Hsw as [Hsi Hsc].
  destruct (applyTexture newModel _ _ _) as [[[] | e'] w2];
    cbn [snd] in *; cbn;
    (split; [rewrite Hi2, Hsi | rewrite Hc2, Hsc]; assumption).
Qed.

Lemma deliver_all_without_inputs (listeners : Listeners)
    (events : list Event) (w : World) :
  image_listener listeners = false ->
  color_listener listeners = false ->
  activeImage (snd (deliver_all listeners events w)) = activeImage w
  /\ color (snd (deliver_all listeners events w)) = color w.
Proof.
  intros Himage Hcolor. revert w.
  induction events as [| event events IH]; intros w; [split; reflexivity |].
  assert (Hstep : activeImage (snd (deliver listeners event w)) = activeImage w
                  /\ color (snd (deliver listeners event w)) = color w).
  { destruct event as [key asset | imageFile | value]; cbn [deliver].
    - destruct (model_listener listeners); [| split; reflexivity].
      apply handle_model_select_keeps.
    - rewrite Himage. split; reflexivity.
    - rewrite Hcolor. split; reflexivity. }
  cbn [deliver_all].
  destruct (deliver listeners event w) as [[[] | e] w1]; cbn [snd] in *;
    destruct Hstep as [Hsi Hsc].
  - destruct (IH w1) as [Hi Hc]. split; congruence.
  - specialize (IH w1). destruct (deliver_all listeners events w1) as [u w2].
    cbn [snd] in *. destruct IH as [Hi Hc]. split; congruence.
Qed.

Lemma install_controls_listeners (document : Document) (asset : Asset)
    (w w1 : World) (listeners : Listeners) :
  install_controls document asset w = (Normal listeners, w1) ->
  model_listener listeners = true
  /\ image_listener listeners
     = bool_decide (is_Some (getImageUploadInput document))
  /\ color_listener listeners
     = bool_decide (is_Some (getImageUploadInput document)
                    /\ is_Some (getColorInput document)).
Proof.
  unfold install_controls, bind.
  destruct (setupImagePreviewControls _ w) as [[[] | e] w']; [| discriminate].
  destruct (getImageUploadInput document) as [image |];
    [destruct (getColorInput document) as [c |] |];
    unfold ret; intros [= <- <-]; cbn; repeat split;
    symmetry; first [apply bool_decide_eq_true | apply bool_decide_eq_false];
    try (split; eauto); try eauto;
    try (intros [H1 H2]; first [now destruct H1 | now destruct H2]);
    try (intros H1; now destruct H1).
Qed.

Lemma install_controls_world (document : Document) (asset : Asset) (w : World) :
  snd (install_controls document asset w)
  = snd (setupImagePreviewControls
           (option_map (fun value => (value, asset))
                       (getActiveModelRadioInput document)) w).
Proof.
  unfold install_controls, bind.
  destruct (setupImagePreviewControls _ w) as [[[] | e] w']; [| reflexivity].
  destruct (getImageUploadInput document);
    [destruct (getColorInput document) |]; reflexivity.
Qed.

(** X19.  The listener of the color input is installed only after the
    image input has been found.  On a page without an image input, a color
    input it may have is not listened to: whatever the events, the color
    stays the initial white and no image is ever active. *)
Theorem color_listener_needs_image_input (context2d : bool)
    (document : Document) (asset : Asset) (events : list Event) :
  getImageUploadInput document = None ->
  color_listener (page_listeners (main context2d document asset)) = false
  /\ color (snd (page_session context2d document asset events)) = "#ffffff"
  /\ activeImage (snd (page_session context2d document asset events)) = None.
Proof.
  intros Hnone. unfold page_session.
  assert (Hl : image_listener (page_listeners (main context2d document asset))
               = false
               /\ color_listener
                    (page_listeners (main context2d document asset)) = false).
  { unfold main.
    destruct (install_controls document asset (initial_world context2d))
      as [[listeners | e] w] eqn:Hinstall; cbn; [| auto].
    destruct (install_controls_listeners _ _ _ _ _ Hinstall) as (_ & -> & ->).
    rewrite Hnone. split; apply bool_decide_eq_false.
    - intros H; now destruct H.
    - intros [H _]; now destruct H. }
  destruct Hl as [Himage Hcolor]. split; [exact Hcolor |].
  destruct (deliver_all_without_inputs _ events
              (page_world (main context2d document asset)) Himage Hcolor)
    as [-> ->].
  assert (Hw : page_world (main context2d document asset)
               = snd (install_controls document asset
                        (initial_world context2d))).
  { unfold main.
    now destruct (install_controls document asset (initial_world context2d))
      as [[listeners | e] w]. }
  rewrite Hw, install_controls_world. unfold setupImagePreviewControls.
  destruct (getActiveModelRadioInput document) as [value |]; cbn [option_map].
  - destruct (handle_model_select_keeps value asset (initial_world context2d))
      as [Hi Hc]. cbn [handle] in Hi, Hc. rewrite Hi, Hc. split; reflexivity.
  - split; reflexivity.
Qed.

Lemma color_listener_needs_image_input_witness :
  getImageUploadInput page_without_image_input = None
  /\ color_listener
       (page_listeners (main true page_without_image_input FirstChildMesh))
     = false
  /\ color (snd (page_session true page_without_image_input FirstChildMesh
                              sample_events)) = "#ffffff"
  /\ activeImage (snd (page_session true page_without_image_input
                                    FirstChildMesh sample_events)) = None.
Proof.
  split; [reflexivity |].
  exact (color_listener_needs_image_input true page_without_image_input
           FirstChildMesh sample_events eq_refl).
Defined.

Lemma deliver_all_no_listeners (events : list Event) (w : World) :
  deliver_all no_listeners events w = ([], w).
Proof.
  induction events as [| event events IH]; [reflexivity |].
  cbn [deliver_all]. now destruct event.
Qed.

(** X20.  When the loader rejects the asset of the model checked at
    startup, [main] is rejected before anything is shown: no frame is
    rendered, the canvas is not attached, no animation loop is set and
    no listener is installed, so that no later event has any effect. *)
Theorem rejected_initial_load_stops_page (context2d : bool)
    (document : Document) (value : string) (events : list Event) :
  getActiveModelRadioInput document = Some value ->
  main context2d document Rejected
  = {| page_world :=
         set_fetched [(model_url value, Rejected)] (initial_world context2d);
       page_listeners := no_listeners;
       page_host := {| frames_rendered := 0; canvas_attached := false;
                       animation_loop := false |};
       page_rejection := Some LoadError |}
  /\ page_session context2d document Rejected events
     = ([], set_fetched [(model_url value, Rejected)]
                        (initial_world context2d)).
Proof.
  intros Hchecked.
  assert (Hmain :
    main context2d document Rejected
    = {| page_world :=
           set_fetched [(model_url value, Rejected)] (initial_world context2d);
         page_listeners := no_listeners;
         page_host := {| frames_rendered := 0; canvas_attached := false;
                         animation_loop := false |};
         page_rejection := Some LoadError |}).
  { unfold main, install_controls, bind. rewrite Hchecked. cbn [option_map].
    unfold setupImagePreviewControls. rewrite setActiveModel_cases.
    rewrite loadGLTFObject_miss by apply lookup_empty. reflexivity. }
  split; [exact Hmain |].
  unfold page_session. rewrite Hmain. cbn [page_listeners page_world].
  apply deliver_all_no_listeners.
Qed.

Lemma rejected_initial_load_stops_page_witness :
  getActiveModelRadioInput page_without_image_input = Some "cup"
  /\ main true page_without_image_input Rejected
     = {| page_world :=
            set_fetched [(model_url "cup", Rejected)] (initial_world true);
          page_listeners := no_listeners;
          page_host := {| frames_rendered := 0; canvas_attached := false;
                          animation_loop := false |};
          page_rejection := Some LoadError |}
  /\ page_session true page_without_image_input Rejected sample_events
     = ([], set_fetched [(model_url "cup", Rejected)] (initial_world true)).
Proof.
  split; [reflexivity |].
  exact (rejected_initial_load_stops_page true page_without_image_input "cup"
           sample_events eq_refl).
Defined.
